(** * useTodos: offline-first reconciliation of the task list

    A shallow embedding of the hook [useTodos] (hooks/useTodos.ts): the
    query function [fetchTodos] and the mutations [addTodo], [updateTodo],
    [deleteTodo] and [toggleComplete], over the two AsyncStorage items
    ['todos'] and ['deletedTaskIds'];  and of the parts of the screen
    (screens/AllTasks.tsx) that feed it: [filteredTodos], the add and edit
    form ([openEditModal], [resetModal], [handleAddOrEditTask]) and
    [handleFetchFromServer].

    Modelling conventions.
    - A [Todo] is the TypeScript interface of the same name as JSON carries
      it, which is how the storage, the remote source and every list the
      hook returns hold it; the optional fields [description?] and
      [isSynced?] are [option]s, [None] standing for an absent key.
    - An object a caller hands to [updateTodo] or [toggleComplete] is built
      in memory, where an optional key can also be present and bound to
      [undefined]; a spread copies such a key and [JSON.stringify] then
      drops it.  These arguments are [TodoObject]s, whose optional keys have
      the three states; a [Todo] is read as the object with the same keys.
      Keys outside the interface (the remote source's [userId]) are carried
      along by the spreads and read by no operation; they are left out.
    - [id : number] holds integers (the screen assigns [Date.now()], the
      remote source small integers); it is a [Z].
    - An AsyncStorage item is kept in parsed form: [JSON.parse] after
      [JSON.stringify] is the identity on arrays of such records, so the
      item ['todos'] is an [option (list Todo)], [None] when [getItem]
      yields [null].
    - An [async] function is a state transformer on the storage that also
      records the effects it performs and either fulfils or rejects. *)

From Stdlib Require Import List ZArith Bool String Lia.
Import ListNotations.
Local Open Scope Z_scope.

(** ** Data model *)

Record Todo : Type := mkTodo {
  id : Z;
  title : string;
  description : option string;
  completed : bool;
  isSynced : option bool
}.

(** [{...todo, isSynced: b}] *)
Definition withIsSynced (b : bool) (todo : Todo) : Todo :=
  {| id := id todo; title := title todo; description := description todo;
     completed := completed todo; isSynced := Some b |}.

(** [{...todo, completed: c}] on a record that came out of JSON. *)
Definition withCompleted (c : bool) (todo : Todo) : Todo :=
  {| id := id todo; title := title todo; description := description todo;
     completed := c; isSynced := isSynced todo |}.

(** An optional key of an object held in memory: absent, present and bound
    to [undefined], or present with a value. *)
Inductive OptionalKey (A : Type) : Type :=
| KeyAbsent
| KeyUndefined
| KeyValue (value : A).
Arguments KeyAbsent {A}.
Arguments KeyUndefined {A}.
Arguments KeyValue {A} value.

(** An object of type [Todo] as a caller builds it in memory. *)
Record TodoObject : Type := mkTodoObject {
  obj_id : Z;
  obj_title : string;
  obj_description : OptionalKey string;
  obj_completed : bool;
  obj_isSynced : OptionalKey bool
}.

Definition keyOfOption {A : Type} (o : option A) : OptionalKey A :=
  match o with
  | Some v => KeyValue v
  | None => KeyAbsent
  end.

(** A record that came out of JSON, as the object it is in memory. *)
Definition inMemory (todo : Todo) : TodoObject :=
  {| obj_id := id todo;
     obj_title := title todo;
     obj_description := keyOfOption (description todo);
     obj_completed := completed todo;
     obj_isSynced := keyOfOption (isSynced todo) |}.
Coercion inMemory : Todo >-> TodoObject.

(** [{...todo, completed: c}] on an object in memory: every other key is
    copied in the state it is in. *)
Definition objWithCompleted (c : bool) (todo : TodoObject) : TodoObject :=
  {| obj_id := obj_id todo; obj_title := obj_title todo;
     obj_description := obj_description todo;
     obj_completed := c; obj_isSynced := obj_isSynced todo |}.

(** An optional key of [{...left, ...right}] as [JSON.stringify] writes it:
    the right operand wins wherever it has the key, also when the key is
    bound to [undefined], and a key bound to [undefined] is not written. *)
Definition spreadKey {A : Type} (left : option A) (right : OptionalKey A)
  : option A :=
  match right with
  | KeyValue v => Some v
  | KeyUndefined => None
  | KeyAbsent => left
  end.

(** [{...todo, ...updatedTodo, isSynced: false}], as it is stored. *)
Definition mergeUpdate (todo : Todo) (updatedTodo : TodoObject) : Todo :=
  {| id := obj_id updatedTodo;
     title := obj_title updatedTodo;
     description := spreadKey (description todo) (obj_description updatedTodo);
     completed := obj_completed updatedTodo;
     isSynced := Some false |}.

(** [Array.prototype.includes] on numbers and [Array.prototype.some]. *)
Definition includes (l : list Z) (x : Z) : bool := existsb (Z.eqb x) l.
Definition some {A : Type} (p : A -> bool) (l : list A) : bool := existsb p l.

Definition ids (l : list Todo) : list Z := map id l.

(** ** Storage, effects and the async monad *)

Record AsyncStorage : Type := mkStorage {
  item_todos : option (list Todo);
  item_deletedTaskIds : option (list Z)
}.

Definition emptyStorage : AsyncStorage :=
  {| item_todos := None; item_deletedTaskIds := None |}.

Inductive Effect : Type :=
| SetItemTodos (value : list Todo)
| SetItemDeletedTaskIds (value : list Z)
| InvalidateQueries.

Inductive Settled (A : Type) : Type :=
| Fulfilled (value : A)
| Rejected.
Arguments Fulfilled {A} value.
Arguments Rejected {A}.

Record Run (A : Type) : Type := mkRun {
  settled : Settled A;
  storage : AsyncStorage;
  effects : list Effect
}.
Arguments mkRun {A} _ _ _.
Arguments settled {A} _.
Arguments storage {A} _.
Arguments effects {A} _.

Definition Async (A : Type) : Type := AsyncStorage -> Run A.

Definition ret {A : Type} (a : A) : Async A :=
  fun st => mkRun (Fulfilled a) st [].

Definition bind {A B : Type} (m : Async A) (k : A -> Async B) : Async B :=
  fun st =>
    let r := m st in
    match settled r with
    | Fulfilled a =>
        let r' := k a (storage r) in
        mkRun (settled r') (storage r') (effects r ++ effects r')
    | Rejected => mkRun Rejected (storage r) (effects r)
    end.

Declare Scope async_scope.
Delimit Scope async_scope with async.
Notation "x <- m ;; k" := (bind m (fun x => k))
  (at level 100, m at next level, right associativity) : async_scope.
Notation "m ;;; k" := (bind m (fun _ => k))
  (at level 100, right associativity) : async_scope.
Local Open Scope async_scope.

(** [await p] for a promise that has already settled outside the storage. *)
Definition await {A : Type} (p : Settled A) : Async A :=
  fun st => mkRun p st [].

Definition getItem_todos : Async (option (list Todo)) :=
  fun st => mkRun (Fulfilled (item_todos st)) st [].

Definition getItem_deletedTaskIds : Async (option (list Z)) :=
  fun st => mkRun (Fulfilled (item_deletedTaskIds st)) st [].

Definition setItem_todos (value : list Todo) : Async unit :=
  fun st =>
    mkRun (Fulfilled tt)
          {| item_todos := Some value;
             item_deletedTaskIds := item_deletedTaskIds st |}
          [SetItemTodos value].

Definition setItem_deletedTaskIds (value : list Z) : Async unit :=
  fun st =>
    mkRun (Fulfilled tt)
          {| item_todos := item_todos st;
             item_deletedTaskIds := Some value |}
          [SetItemDeletedTaskIds value].

Definition invalidateQueries : Async unit :=
  fun st => mkRun (Fulfilled tt) st [InvalidateQueries].

(** [item ? JSON.parse(item) : []] *)
Definition parseOr {A : Type} (item : option (list A)) : list A :=
  match item with
  | Some l => l
  | None => []
  end.

(** ** The connectivity probe and the remote source *)

(** [NetInfo.fetch()] yields a state whose [isConnected] is
    [boolean | null]; [null] is falsy. *)
Record NetInfoState : Type := mkNetInfo { isConnected : option bool }.

Definition truthy (b : option bool) : bool :=
  match b with
  | Some true => true
  | _ => false
  end.

(** ** The hook *)

(** [fetchTodos].  [api] is the outcome of [fetch(API_URL)] followed by
    [response.json()]: the remote array, or a rejection.  It is awaited
    only on the connected branch. *)
Definition fetchTodos (netInfo : NetInfoState) (api : Settled (list Todo))
  : Async (list Todo) :=
  localTodos <- getItem_todos ;;
  let parsedTodos := parseOr localTodos in
  deletedTaskIds <- getItem_deletedTaskIds ;;
  let parsedDeletedTaskIds := parseOr deletedTaskIds in
  if truthy (isConnected netInfo) then
    serverTodos <- await api ;;
    let serverTodosWithSync :=
      filter (fun todo => negb (includes parsedDeletedTaskIds (id todo)))
             (map (withIsSynced true) serverTodos) in
    let filteredServerTodos :=
      filter (fun serverTodo =>
                negb (some (fun localTodo => id localTodo =? id serverTodo)
                           parsedTodos))
             serverTodosWithSync in
    let mergedTodos := parsedTodos ++ filteredServerTodos in
    setItem_todos mergedTodos ;;;
    ret mergedTodos
  else
    ret parsedTodos.

(** [addTodo]'s mutation function. *)
Definition addTodo (newTodo : Todo) : Async unit :=
  localTodos <- getItem_todos ;;
  let parsedTodos := parseOr localTodos in
  let updatedTodos := withIsSynced false newTodo :: parsedTodos in
  setItem_todos updatedTodos ;;;
  invalidateQueries.

(** [updateTodo]'s mutation function.  The list is bound to
    [updatedTodos] as [JSON.stringify] writes it. *)
Definition updateTodo (updatedTodo : TodoObject) : Async unit :=
  localTodos <- getItem_todos ;;
  let parsedTodos := parseOr localTodos in
  let updatedTodos :=
    map (fun todo =>
           if id todo =? obj_id updatedTodo
           then mergeUpdate todo updatedTodo
           else todo)
        parsedTodos in
  setItem_todos updatedTodos ;;;
  invalidateQueries.

(** [deleteTodo]'s mutation function. *)
Definition deleteTodo (id0 : Z) : Async unit :=
  localTodos <- getItem_todos ;;
  let parsedTodos := parseOr localTodos in
  let updatedTodos := filter (fun todo => negb (id todo =? id0)) parsedTodos in
  setItem_todos updatedTodos ;;;
  deletedTaskIds <- getItem_deletedTaskIds ;;
  let parsedDeletedTaskIds := parseOr deletedTaskIds in
  let updatedDeletedTaskIds := parsedDeletedTaskIds ++ [id0] in
  setItem_deletedTaskIds updatedDeletedTaskIds ;;;
  invalidateQueries.

(** [toggleComplete] *)
Definition toggleComplete (todo : TodoObject) : Async unit :=
  updateTodo (objWithCompleted (negb (obj_completed todo)) todo).

(** The stored collections as a reader sees them. *)
Definition localTasks (st : AsyncStorage) : list Todo := parseOr (item_todos st).
Definition deletedIds (st : AsyncStorage) : list Z :=
  parseOr (item_deletedTaskIds st).

Definition online : NetInfoState := {| isConnected := Some true |}.
Definition offline : NetInfoState := {| isConnected := Some false |}.

(** The expression bound to [mergedTodos] in [fetchTodos], as a function of
    the three arrays it is computed from. *)
Definition mergedTodos (parsedTodos : list Todo) (parsedDeletedTaskIds : list Z)
                       (serverTodos : list Todo) : list Todo :=
  parsedTodos ++
  filter (fun serverTodo =>
            negb (some (fun localTodo => id localTodo =? id serverTodo)
                       parsedTodos))
         (filter (fun todo => negb (includes parsedDeletedTaskIds (id todo)))
                 (map (withIsSynced true) serverTodos)).

(** ** Sequences of operations *)

Inductive Op : Type :=
| OpAddTask (task : Todo)
| OpUpdateTask (task : TodoObject)
| OpDeleteTask (id0 : Z)
| OpToggleComplete (task : TodoObject)
| OpLoadAndReconcile (netInfo : NetInfoState) (api : Settled (list Todo)).

(** The storage an operation leaves behind (whether it fulfils or rejects). *)
Definition perform (o : Op) (st : AsyncStorage) : AsyncStorage :=
  match o with
  | OpAddTask task => storage (addTodo task st)
  | OpUpdateTask task => storage (updateTodo task st)
  | OpDeleteTask id0 => storage (deleteTodo id0 st)
  | OpToggleComplete task => storage (toggleComplete task st)
  | OpLoadAndReconcile netInfo api => storage (fetchTodos netInfo api st)
  end.

(** Every storage state visited by a sequence of operations, the initial
    one included. *)
Fixpoint history (ops : list Op) (st : AsyncStorage) : list AsyncStorage :=
  st :: match ops with
        | [] => []
        | o :: ops' => history ops' (perform o st)
        end.

Definition performAll (ops : list Op) (st : AsyncStorage) : AsyncStorage :=
  fold_left (fun s o => perform o s) ops st.

(** Pairwise distinct numbers. *)
Fixpoint distinct (l : list Z) : bool :=
  match l with
  | [] => true
  | x :: l' => negb (includes l' x) && distinct l'
  end.

Definition uniqueIds (st : AsyncStorage) : Prop := NoDup (ids (localTasks st)).

(** The callers' discipline under which identifiers stay unique: a task is
    added under an identifier not yet stored, and a remote array that gets
    merged carries pairwise distinct identifiers. *)
Definition disciplined (st : AsyncStorage) (o : Op) : bool :=
  match o with
  | OpAddTask task => negb (includes (ids (localTasks st)) (id task))
  | OpLoadAndReconcile netInfo (Fulfilled serverTodos) =>
      if truthy (isConnected netInfo) then distinct (ids serverTodos) else true
  | _ => true
  end.

Fixpoint allDisciplined (st : AsyncStorage) (ops : list Op) : bool :=
  match ops with
  | [] => true
  | o :: ops' => disciplined st o && allDisciplined (perform o st) ops'
  end.

(** ** The merge as the specification words it *)

(** Steps 4 to 7 of loadAndReconcile: tag every remote task as synced, drop
    those whose id is a tombstone, drop those whose id is already held
    locally, and put what is left after the local tasks. *)
Definition spec_unseenRemote (L : list Todo) (D : list Z) (R : list Todo)
  : list Todo :=
  filter (fun r =>
            if in_dec Z.eq_dec (id r) D then false
            else if in_dec Z.eq_dec (id r) (ids L) then false
            else true)
         (map (withIsSynced true) R).

Definition spec_reconcile (L : list Todo) (D : list Z) (R : list Todo)
  : list Todo :=
  L ++ spec_unseenRemote L D R.

(** ** Counting occurrences *)

Definition Todo_eq_dec : forall x y : Todo, {x = y} + {x <> y}.
Proof.
  decide equality;
    try apply bool_dec; try apply string_dec; try apply Z.eq_dec;
    decide equality; try apply bool_dec; apply string_dec.
Defined.

(** How often a record occurs in a list, and how many entries carry an id. *)
Definition occurrences (t : Todo) (l : list Todo) : nat :=
  count_occ Todo_eq_dec l t.
Definition entriesWithId (i : Z) (l : list Todo) : nat :=
  List.length (filter (fun todo => id todo =? i) l).

(** ** Sample data *)

Definition taskA : Todo :=
  {| id := 1; title := "A"%string; description := None; completed := false;
     isSynced := None |}.
Definition taskB : Todo :=
  {| id := 2; title := "B"%string; description := None; completed := false;
     isSynced := None |}.
Definition remoteA : Todo :=
  {| id := 1; title := "A-server"%string; description := None; completed := true;
     isSynced := None |}.

(** Section 8's scenario: one local task, no tombstone, a remote array that
    repeats the local id and brings a new one. *)
Definition stScenario : AsyncStorage :=
  {| item_todos := Some [taskA]; item_deletedTaskIds := Some [] |}.
Definition remoteScenario : list Todo := [remoteA; taskB].

(** Task 1 deleted and then added again under the same id. *)
Definition stReadded : AsyncStorage :=
  performAll [OpDeleteTask 1; OpAddTask taskA] emptyStorage.

(** The storage after task A has been added once to the empty storage. *)
Definition stAdded : AsyncStorage := performAll [OpAddTask taskA] emptyStorage.

(** An edit of task 1 as the screen submits it. *)
Definition editA : Todo :=
  {| id := 1; title := "A2"%string; description := Some ""%string;
     completed := true; isSynced := None |}.

(** ** Bookkeeping over sequences of operations *)

(** The ids the deleteTask operations of a sequence bring, in order. *)
Definition deletedBy (ops : list Op) : list Z :=
  flat_map (fun o => match o with
                     | OpDeleteTask id0 => [id0]
                     | _ => []
                     end) ops.

Definition isDelete (o : Op) : bool :=
  match o with
  | OpDeleteTask _ => true
  | _ => false
  end.

(** Every stored task carries an [isSynced] key. *)
Definition allFlagged (st : AsyncStorage) : Prop :=
  Forall (fun t => isSynced t <> None) (localTasks st).

(** ** The screen (screens/AllTasks.tsx)

    The screen's handlers, as far as they decide what reaches the hook and
    the storage.  A handler reads the component state of the render it was
    created in and issues [set...] calls, which are listed in the order of
    the source, next to the storage action it starts.  Rendering, styles and
    the toast are left out. *)

(** [useState<'All' | 'Pending' | 'Completed'>] *)
Inductive Filter : Type := All | Pending | Completed.

(** [filteredTodos]; [todos] is the query's [data], [undefined] until the
    first fetch has settled. *)
Definition filteredTodos (todos : option (list Todo)) (filter : Filter)
  : list Todo :=
  match todos with
  | None => []
  | Some todos =>
      match filter with
      | All => todos
      | _ =>
          List.filter (fun todo =>
                         match filter with
                         | Pending => negb (completed todo)
                         | _ => completed todo
                         end)
                      todos
      end
  end.

(** The form behind the add and edit modal; [id] is [number | null]. *)
Record TaskData : Type := mkTaskData {
  taskData_id : option Z;
  taskData_title : string;
  taskData_description : string;
  taskData_completed : bool
}.

Record ModalState : Type := mkModalState {
  addTask : bool;
  confirmSync : bool
}.

Record Screen : Type := mkScreen {
  taskData : TaskData;
  modalState : ModalState;
  isOnline : bool;
  isSyncing : bool
}.

Inductive SetState : Type :=
| SetTaskData (value : TaskData)
| SetModalState (value : ModalState)
| SetIsOnline (value : bool)
| SetIsSyncing (value : bool).

Definition applySet (sc : Screen) (s : SetState) : Screen :=
  match s with
  | SetTaskData v =>
      {| taskData := v; modalState := modalState sc;
         isOnline := isOnline sc; isSyncing := isSyncing sc |}
  | SetModalState v =>
      {| taskData := taskData sc; modalState := v;
         isOnline := isOnline sc; isSyncing := isSyncing sc |}
  | SetIsOnline v =>
      {| taskData := taskData sc; modalState := modalState sc;
         isOnline := v; isSyncing := isSyncing sc |}
  | SetIsSyncing v =>
      {| taskData := taskData sc; modalState := modalState sc;
         isOnline := isOnline sc; isSyncing := v |}
  end.

Definition applySets (sets : list SetState) (sc : Screen) : Screen :=
  fold_left applySet sets sc.

(** Truthiness of a string and of a [number | null] holding an integer. *)
Definition truthyString (s : string) : bool :=
  match s with
  | EmptyString => false
  | _ => true
  end.

Definition truthyNumber (n : option Z) : bool :=
  match n with
  | Some z => negb (z =? 0)
  | None => false
  end.

(** [s || ''] *)
Definition orEmpty (s : string) : string :=
  if truthyString s then s else EmptyString.

(** [task.description || ''] for the optional key. *)
Definition descriptionOrEmpty (d : option string) : string :=
  match d with
  | Some s => orEmpty s
  | None => EmptyString
  end.

Definition initialTaskData : TaskData :=
  {| taskData_id := None; taskData_title := EmptyString;
     taskData_description := EmptyString; taskData_completed := false |}.

(** [resetModal] *)
Definition resetModal : list SetState :=
  [SetTaskData initialTaskData;
   SetModalState {| addTask := false; confirmSync := false |}].

(** [openEditModal] *)
Definition openEditModal (task : Todo) (sc : Screen) : list SetState :=
  [SetTaskData {| taskData_id := Some (id task);
                  taskData_title := title task;
                  taskData_description := descriptionOrEmpty (description task);
                  taskData_completed := completed task |};
   SetModalState {| addTask := true;
                    confirmSync := confirmSync (modalState sc) |}].

(** [handleAddOrEditTask].  [trim] is [String.prototype.trim] and [now] the
    value [Date.now()] would give; [mutate] starts the mutation function. *)
Definition handleAddOrEditTask (trim : string -> string) (now : Z)
           (sc : Screen) : list SetState * Async unit :=
  let td := taskData sc in
  if truthyString (trim (taskData_title td)) then
    (resetModal,
     match taskData_id td with
     | Some i =>
         if truthyNumber (Some i) then
           updateTodo {| id := i;
                         title := taskData_title td;
                         description := Some (orEmpty (taskData_description td));
                         completed := taskData_completed td;
                         isSynced := None |}
         else
           addTodo {| id := now;
                      title := taskData_title td;
                      description := Some (orEmpty (taskData_description td));
                      completed := false;
                      isSynced := None |}
     | None =>
         addTodo {| id := now;
                    title := taskData_title td;
                    description := Some (orEmpty (taskData_description td));
                    completed := false;
                    isSynced := None |}
     end)
  else ([], ret tt).

(** [handleFetchFromServer]: the item ['todos'] is overwritten with the
    empty array before the query is invalidated. *)
Definition handleFetchFromServer (sc : Screen) : list SetState * Async unit :=
  ([SetIsSyncing true;
    SetIsSyncing false;
    SetModalState {| addTask := addTask (modalState sc);
                     confirmSync := false |}],
   (setItem_todos [] ;;; invalidateQueries)).

(** A screen with the modal closed and the form empty. *)
Definition idleScreen : Screen :=
  {| taskData := initialTaskData;
     modalState := {| addTask := false; confirmSync := false |};
     isOnline := true; isSyncing := false |}.

(** A stand-in for [trim] in examples: it drops leading spaces only, which
    is enough to tell a blank title from one with text. *)
Fixpoint dropSpaces (s : string) : string :=
  match s with
  | String c s' => if Ascii.eqb c (Ascii.ascii_of_nat 32) then dropSpaces s' else s
  | EmptyString => EmptyString
  end.

Definition taskZero : Todo :=
  {| id := 0; title := "Z"%string; description := None; completed := true;
     isSynced := Some true |}.

(** The form as it stands after a title with a leading space was typed into
    the empty form, and a form whose title holds spaces only. *)
Definition formNew : Screen :=
  {| taskData := {| taskData_id := None; taskData_title := " milk"%string;
                    taskData_description := EmptyString;
                    taskData_completed := false |};
     modalState := {| addTask := true; confirmSync := false |};
     isOnline := true; isSyncing := false |}.

Definition formBlank : Screen :=
  {| taskData := {| taskData_id := None; taskData_title := "   "%string;
                    taskData_description := "later"%string;
                    taskData_completed := false |};
     modalState := {| addTask := true; confirmSync := false |};
     isOnline := true; isSyncing := false |}.

(** A stored task with a description, and two objects for updateTodo under
    its id: one binds [description] to [undefined], one has no such key. *)
Definition taskD : Todo :=
  {| id := 4; title := "D"%string; description := Some "d"%string;
     completed := false; isSynced := Some true |}.
Definition stD : AsyncStorage :=
  {| item_todos := Some [taskD]; item_deletedTaskIds := None |}.
Definition clearD : TodoObject :=
  {| obj_id := 4; obj_title := "D"%string; obj_description := KeyUndefined;
     obj_completed := false; obj_isSynced := KeyAbsent |}.
Definition renameD : TodoObject :=
  {| obj_id := 4; obj_title := "D2"%string; obj_description := KeyAbsent;
     obj_completed := false; obj_isSynced := KeyAbsent |}.

(** * Properties *)

(** ** Array predicates *)

Lemma includes_In (l : list Z) (x : Z) : includes l x = true <-> In x l.
Proof.
  unfold includes. rewrite existsb_exists. split.
  - intros [y [Hy Heq]]. apply Z.eqb_eq in Heq. now subst.
  - intros H. exists x. split; [assumption | apply Z.eqb_refl].
Qed.

Lemma includes_not_In (l : list Z) (x : Z) : includes l x = false <-> ~ In x l.
Proof.
  rewrite <- includes_In. destruct (includes l x); split; congruence.
Qed.

Lemma some_id_In (L : list Todo) (i : Z) :
  some (fun localTodo => id localTodo =? i) L = true <-> In i (ids L).
Proof.
  unfold some, ids. rewrite existsb_exists, in_map_iff. split.
  - intros [t [Ht Heq]]. apply Z.eqb_eq in Heq. now exists t.
  - intros [t [Heq Ht]]. exists t. split; [assumption | now apply Z.eqb_eq].
Qed.

Lemma some_id_not_In (L : list Todo) (i : Z) :
  some (fun localTodo => id localTodo =? i) L = false <-> ~ In i (ids L).
Proof.
  rewrite <- some_id_In.
  destruct (some (fun localTodo => id localTodo =? i) L); split; congruence.
Qed.

Lemma distinct_NoDup (l : list Z) : distinct l = true <-> NoDup l.
Proof.
  induction l as [|x l IH]; simpl.
  - split; [constructor | reflexivity].
  - rewrite andb_true_iff, negb_true_iff, includes_not_In, IH. split.
    + intros [Hx Hl]. now constructor.
    + intros H. inversion H; subst. now split.
Qed.

(** ** One run of each operation, unfolded *)

Lemma fetchTodos_connected (netInfo : NetInfoState) (serverTodos : list Todo)
      (st : AsyncStorage) :
  truthy (isConnected netInfo) = true ->
  fetchTodos netInfo (Fulfilled serverTodos) st =
  let merged := mergedTodos (localTasks st) (deletedIds st) serverTodos in
  mkRun (Fulfilled merged)
        {| item_todos := Some merged;
           item_deletedTaskIds := item_deletedTaskIds st |}
        [SetItemTodos merged].
Proof.
  intros Hnet. unfold fetchTodos, bind; simpl. rewrite Hnet. reflexivity.
Qed.

Lemma fetchTodos_rejected (netInfo : NetInfoState) (st : AsyncStorage) :
  truthy (isConnected netInfo) = true ->
  fetchTodos netInfo Rejected st = mkRun Rejected st [].
Proof.
  intros Hnet. unfold fetchTodos, bind; simpl. rewrite Hnet. reflexivity.
Qed.

Lemma fetchTodos_disconnected (netInfo : NetInfoState)
      (api : Settled (list Todo)) (st : AsyncStorage) :
  truthy (isConnected netInfo) = false ->
  fetchTodos netInfo api st = mkRun (Fulfilled (localTasks st)) st [].
Proof.
  intros Hnet. unfold fetchTodos, bind; simpl. rewrite Hnet. reflexivity.
Qed.

Lemma addTodo_run (newTodo : Todo) (st : AsyncStorage) :
  addTodo newTodo st =
  let updated := withIsSynced false newTodo :: localTasks st in
  mkRun (Fulfilled tt)
        {| item_todos := Some updated;
           item_deletedTaskIds := item_deletedTaskIds st |}
        [SetItemTodos updated; InvalidateQueries].
Proof. reflexivity. Qed.

Lemma updateTodo_run (updatedTodo : TodoObject) (st : AsyncStorage) :
  updateTodo updatedTodo st =
  let updated :=
    map (fun todo => if id todo =? obj_id updatedTodo
                     then mergeUpdate todo updatedTodo else todo)
        (localTasks st) in
  mkRun (Fulfilled tt)
        {| item_todos := Some updated;
           item_deletedTaskIds := item_deletedTaskIds st |}
        [SetItemTodos updated; InvalidateQueries].
Proof. reflexivity. Qed.

Lemma deleteTodo_run (id0 : Z) (st : AsyncStorage) :
  deleteTodo id0 st =
  let remaining := filter (fun todo => negb (id todo =? id0)) (localTasks st) in
  let tombstones := deletedIds st ++ [id0] in
  mkRun (Fulfilled tt)
        {| item_todos := Some remaining;
           item_deletedTaskIds := Some tombstones |}
        [SetItemTodos remaining; SetItemDeletedTaskIds tombstones;
         InvalidateQueries].
Proof. reflexivity. Qed.

(** ** The merge *)

Lemma unseen_filters_fuse (L : list Todo) (D : list Z) (S : list Todo) :
  filter (fun serverTodo =>
            negb (some (fun localTodo => id localTodo =? id serverTodo) L))
         (filter (fun todo => negb (includes D (id todo))) S) =
  filter (fun r =>
            if in_dec Z.eq_dec (id r) D then false
            else if in_dec Z.eq_dec (id r) (ids L) then false
            else true) S.
Proof.
  induction S as [|r S IH]; simpl; [reflexivity|].
  destruct (in_dec Z.eq_dec (id r) D) as [HD|HD].
  - apply includes_In in HD. rewrite HD. simpl. exact IH.
  - apply includes_not_In in HD. rewrite HD. simpl.
    destruct (in_dec Z.eq_dec (id r) (ids L)) as [HL|HL].
    + apply some_id_In in HL. rewrite HL. simpl. exact IH.
    + apply some_id_not_In in HL. rewrite HL. simpl. now rewrite IH.
Qed.

Lemma mergedTodos_spec (L : list Todo) (D : list Z) (R : list Todo) :
  mergedTodos L D R = spec_reconcile L D R.
Proof.
  unfold mergedTodos, spec_reconcile, spec_unseenRemote.
  now rewrite unseen_filters_fuse.
Qed.

Lemma fetchTodos_connected_spec (st : AsyncStorage) (netInfo : NetInfoState)
      (R : list Todo) :
  truthy (isConnected netInfo) = true ->
  fetchTodos netInfo (Fulfilled R) st =
    mkRun (Fulfilled (localTasks st ++
                      spec_unseenRemote (localTasks st) (deletedIds st) R))
          {| item_todos :=
               Some (localTasks st ++
                     spec_unseenRemote (localTasks st) (deletedIds st) R);
             item_deletedTaskIds := item_deletedTaskIds st |}
          [SetItemTodos (localTasks st ++
                         spec_unseenRemote (localTasks st) (deletedIds st) R)].
Proof.
  intros Hnet. rewrite (fetchTodos_connected _ _ _ Hnet). cbv zeta.
  rewrite mergedTodos_spec. reflexivity.
Qed.

Lemma ids_app (l1 l2 : list Todo) : ids (l1 ++ l2) = ids l1 ++ ids l2.
Proof. unfold ids. apply map_app. Qed.

Lemma In_spec_unseenRemote (L : list Todo) (D : list Z) (R : list Todo)
      (t : Todo) :
  In t (spec_unseenRemote L D R) <->
  In t (map (withIsSynced true) R) /\ ~ In (id t) D /\ ~ In (id t) (ids L).
Proof.
  unfold spec_unseenRemote. rewrite filter_In.
  destruct (in_dec Z.eq_dec (id t) D); [intuition discriminate|].
  destruct (in_dec Z.eq_dec (id t) (ids L)); intuition discriminate.
Qed.

(** ** loadAndReconcile *)

(** C1. Online, with a remote fetch that succeeds on the array [R],
    loadAndReconcile returns the local tasks [L], in their order, followed by
    exactly the tasks of [R], each with its fields and [isSynced = true],
    whose id is neither in the deleted-id list [D] nor the id of a task of
    [L], in the order of [R]; it writes this list under the task-list key
    and nothing else.  Every task it appends carries [isSynced = true],
    whatever flag the remote record had. *)
Theorem loadAndReconcile_online_merge
        (st : AsyncStorage) (netInfo : NetInfoState) (R : list Todo) :
  truthy (isConnected netInfo) = true ->
  let L := localTasks st in
  let D := deletedIds st in
  let tagged :=
    map (fun r => {| id := id r; title := title r;
                     description := description r;
                     completed := completed r;
                     isSynced := Some true |}) R in
  let unseen :=
    filter (fun t => if in_dec Z.eq_dec (id t) D then false
                     else if in_dec Z.eq_dec (id t) (map id L) then false
                     else true) tagged in
  let merged := L ++ unseen in
  fetchTodos netInfo (Fulfilled R) st =
    mkRun (Fulfilled merged)
          {| item_todos := Some merged;
             item_deletedTaskIds := item_deletedTaskIds st |}
          [SetItemTodos merged]
  /\ (forall t, In t unseen <->
                (exists r, In r R /\
                           t = {| id := id r; title := title r;
                                  description := description r;
                                  completed := completed r;
                                  isSynced := Some true |})
                /\ ~ In (id t) D /\ ~ In (id t) (map id L))
  /\ (forall t, In t unseen -> isSynced t = Some true)
  /\ unseen = spec_unseenRemote L D R.
Proof.
  intros Hnet L D tagged unseen merged.
  assert (Hspec : unseen = spec_unseenRemote L D R) by reflexivity.
  assert (Hmem : forall t, In t unseen <->
                   (exists r, In r R /\
                              t = {| id := id r; title := title r;
                                     description := description r;
                                     completed := completed r;
                                     isSynced := Some true |})
                   /\ ~ In (id t) D /\ ~ In (id t) (map id L)).
  { intros t. rewrite Hspec, In_spec_unseenRemote, in_map_iff.
    split; intros [[r Hr] Hrest]; (split; [exists r|exact Hrest]);
      destruct Hr; split; try assumption; symmetry; assumption. }
  split; [|split; [exact Hmem|split; [|exact Hspec]]].
  - subst merged. rewrite Hspec.
    exact (fetchTodos_connected_spec st netInfo R Hnet).
  - intros t Ht. apply Hmem in Ht. destruct Ht as [[r [_ Heq]] _].
    now subst t.
Qed.

Lemma loadAndReconcile_online_merge_witness :
  truthy (isConnected online) = true /\
  fetchTodos online (Fulfilled remoteScenario) stScenario =
    mkRun (Fulfilled [taskA;
                      {| id := 2; title := "B"%string; description := None;
                         completed := false; isSynced := Some true |}])
          {| item_todos :=
               Some [taskA;
                     {| id := 2; title := "B"%string; description := None;
                        completed := false; isSynced := Some true |}];
             item_deletedTaskIds := Some [] |}
          [SetItemTodos
             [taskA;
              {| id := 2; title := "B"%string; description := None;
                 completed := false; isSynced := Some true |}]].
Proof.
  split; [reflexivity|].
  exact (proj1 (loadAndReconcile_online_merge
                  stScenario online remoteScenario eq_refl)).
Defined.

(** C3, as the code has it. Online, when the remote fetch fails, the failure
    reaches the caller: loadAndReconcile rejects, having written nothing and
    left both stored collections as they were. *)
Theorem loadAndReconcile_fetch_failure_rejects
        (st : AsyncStorage) (netInfo : NetInfoState) :
  truthy (isConnected netInfo) = true ->
  settled (fetchTodos netInfo Rejected st) = Rejected
  /\ storage (fetchTodos netInfo Rejected st) = st
  /\ effects (fetchTodos netInfo Rejected st) = [].
Proof.
  intros Hnet. rewrite (fetchTodos_rejected _ _ Hnet). now repeat split.
Qed.

Lemma loadAndReconcile_fetch_failure_rejects_witness :
  truthy (isConnected online) = true /\
  settled (fetchTodos online Rejected stScenario) = Rejected /\
  storage (fetchTodos online Rejected stScenario) = stScenario /\
  effects (fetchTodos online Rejected stScenario) = [].
Proof.
  split; [reflexivity|].
  exact (loadAndReconcile_fetch_failure_rejects stScenario online eq_refl).
Defined.

(** C3 as stated fails: with one local task stored, online and with a failed
    fetch, the call does not return the local tasks. *)
Lemma loadAndReconcile_fetch_failure_no_fallback :
  settled (fetchTodos online Rejected stScenario)
  <> Fulfilled (localTasks stScenario).
Proof. vm_compute. discriminate. Qed.

(** C5. Offline (the probe reports [false] or [null]) loadAndReconcile
    returns the stored task list as it is, whatever the remote source would
    have answered, performs no effect at all (no [setItem] in particular),
    and leaves the storage, both keys of it, as it found it. *)
Theorem loadAndReconcile_offline_frame
        (st : AsyncStorage) (netInfo : NetInfoState)
        (api : Settled (list Todo)) :
  truthy (isConnected netInfo) = false ->
  settled (fetchTodos netInfo api st) = Fulfilled (localTasks st)
  /\ effects (fetchTodos netInfo api st) = []
  /\ storage (fetchTodos netInfo api st) = st.
Proof.
  intros Hnet. rewrite (fetchTodos_disconnected _ _ _ Hnet). now repeat split.
Qed.

Lemma loadAndReconcile_offline_frame_witness :
  truthy (isConnected offline) = false /\
  settled (fetchTodos offline (Fulfilled remoteScenario) stScenario)
    = Fulfilled [taskA] /\
  effects (fetchTodos offline (Fulfilled remoteScenario) stScenario) = [] /\
  storage (fetchTodos offline (Fulfilled remoteScenario) stScenario)
    = stScenario.
Proof.
  split; [reflexivity|].
  exact (loadAndReconcile_offline_frame
           stScenario offline (Fulfilled remoteScenario) eq_refl).
Defined.

(** ** Tombstones and the merged list *)

Lemma filter_none {A : Type} (p : A -> bool) (l : list A) :
  (forall x, In x l -> p x = false) -> filter p l = [].
Proof.
  induction l as [|a l IH]; intros H; simpl; [reflexivity|].
  rewrite (H a (or_introl eq_refl)). apply IH. intros x Hx. apply H. now right.
Qed.

Lemma unseenRemote_avoids_deleted (L : list Todo) (D : list Z) (R : list Todo)
      (t : Todo) :
  In t (spec_unseenRemote L D R) -> ~ In (id t) D.
Proof. intros H. now apply In_spec_unseenRemote in H. Qed.




(** ** Idempotence *)

Lemma unseenRemote_after_merge (L : list Todo) (D : list Z) (R : list Todo) :
  spec_unseenRemote (L ++ spec_unseenRemote L D R) D R = [].
Proof.
  unfold spec_unseenRemote at 1. apply filter_none. intros r Hr.
  destruct (in_dec Z.eq_dec (id r) D) as [HD|HD]; [reflexivity|].
  destruct (in_dec Z.eq_dec (id r) (ids (L ++ spec_unseenRemote L D R)))
    as [HM|HM]; [reflexivity|].
  exfalso. apply HM. rewrite ids_app. apply in_or_app.
  destruct (in_dec Z.eq_dec (id r) (ids L)) as [HL|HL]; [now left|].
  right. unfold ids. apply in_map. apply In_spec_unseenRemote. now repeat split.
Qed.

(** C4. Two online calls of loadAndReconcile in a row against the same
    remote array [R]: the second call returns the list the first one
    returned and leaves the storage as the first one left it, so the second
    merge adds no task. *)
Theorem loadAndReconcile_online_idempotent
        (st : AsyncStorage) (netInfo1 netInfo2 : NetInfoState)
        (R : list Todo) :
  truthy (isConnected netInfo1) = true ->
  truthy (isConnected netInfo2) = true ->
  let first := fetchTodos netInfo1 (Fulfilled R) st in
  let second := fetchTodos netInfo2 (Fulfilled R) (storage first) in
  settled second = settled first
  /\ storage second = storage first
  /\ exists merged, settled first = Fulfilled merged.
Proof.
  intros H1 H2 first second. subst first second.
  pose proof (fetchTodos_connected_spec st netInfo1 R H1) as Hrun1.
  set (merged := localTasks st ++
                 spec_unseenRemote (localTasks st) (deletedIds st) R) in *.
  set (st1 := {| item_todos := Some merged;
                 item_deletedTaskIds := item_deletedTaskIds st |}) in *.
  rewrite Hrun1. cbn [storage settled].
  pose proof (fetchTodos_connected_spec st1 netInfo2 R H2) as Hrun2.
  change (localTasks st1) with merged in Hrun2.
  change (deletedIds st1) with (deletedIds st) in Hrun2.
  unfold merged at 2 4 6 in Hrun2.
  rewrite unseenRemote_after_merge, app_nil_r in Hrun2.
  rewrite Hrun2. cbn [storage settled].
  repeat split. now exists merged.
Qed.

Lemma loadAndReconcile_online_idempotent_witness :
  truthy (isConnected online) = true /\
  settled (fetchTodos online (Fulfilled remoteScenario)
             (storage (fetchTodos online (Fulfilled remoteScenario) stScenario)))
    = settled (fetchTodos online (Fulfilled remoteScenario) stScenario) /\
  storage (fetchTodos online (Fulfilled remoteScenario)
             (storage (fetchTodos online (Fulfilled remoteScenario) stScenario)))
    = storage (fetchTodos online (Fulfilled remoteScenario) stScenario) /\
  exists merged,
    settled (fetchTodos online (Fulfilled remoteScenario) stScenario)
      = Fulfilled merged.
Proof.
  split; [reflexivity|].
  exact (loadAndReconcile_online_idempotent
           stScenario online online remoteScenario eq_refl eq_refl).
Defined.

(** ** Mutations *)

Lemma filter_all {A : Type} (p : A -> bool) (l : list A) :
  (forall x, In x l -> p x = true) -> filter p l = l.
Proof.
  induction l as [|a l IH]; intros H; simpl; [reflexivity|].
  rewrite (H a (or_introl eq_refl)). f_equal. apply IH.
  intros x Hx. apply H. now right.
Qed.

Lemma id_neqb (t : Todo) (i : Z) : negb (id t =? i) = true <-> id t <> i.
Proof. rewrite negb_true_iff. apply Z.eqb_neq. Qed.

Lemma ids_without (i : Z) (l : list Todo) :
  ~ In i (ids (filter (fun todo => negb (id todo =? i)) l)).
Proof.
  unfold ids. rewrite in_map_iff. intros [t [Heq Ht]].
  apply filter_In in Ht. destruct Ht as [_ Hne]. apply id_neqb in Hne.
  contradiction.
Qed.

(** C7. deleteTask(id) writes the task list without the entries whose id is
    [id0] (the same list when there is none), then the deleted-id list with
    [id0] appended, then signals a refresh; an online loadAndReconcile that
    follows, against a remote array that still holds a task with that id,
    returns and persists a list with no task of that id. *)
Theorem deleteTask_removes_and_tombstones (st : AsyncStorage) (id0 : Z) :
  let L := localTasks st in
  let D := deletedIds st in
  let after := deleteTodo id0 st in
  let remaining := filter (fun todo => negb (id todo =? id0)) L in
  settled after = Fulfilled tt
  /\ storage after = {| item_todos := Some remaining;
                        item_deletedTaskIds := Some (D ++ [id0]) |}
  /\ effects after = [SetItemTodos remaining;
                      SetItemDeletedTaskIds (D ++ [id0]);
                      InvalidateQueries]
  /\ (forall t, In t remaining <-> In t L /\ id t <> id0)
  /\ (~ In id0 (ids L) -> remaining = L)
  /\ (forall netInfo R,
         truthy (isConnected netInfo) = true ->
         In id0 (ids R) ->
         exists merged,
           fetchTodos netInfo (Fulfilled R) (storage after) =
             mkRun (Fulfilled merged)
                   {| item_todos := Some merged;
                      item_deletedTaskIds := Some (D ++ [id0]) |}
                   [SetItemTodos merged]
           /\ ~ In id0 (ids merged)).
Proof.
  intros L D after remaining. subst after. rewrite deleteTodo_run.
  cbv zeta. fold L D remaining. cbn [settled storage effects].
  split; [reflexivity|]. split; [reflexivity|]. split; [reflexivity|].
  split; [|split].
  - intros t. unfold remaining. rewrite filter_In, id_neqb. reflexivity.
  - intros Hno. unfold remaining. apply filter_all. intros t Ht.
    apply id_neqb. intros Heq. apply Hno. unfold ids. rewrite <- Heq.
    now apply in_map.
  - intros netInfo R Hnet _.
    set (st' := {| item_todos := Some remaining;
                   item_deletedTaskIds := Some (D ++ [id0]) |}).
    pose proof (fetchTodos_connected_spec st' netInfo R Hnet) as Hrun.
    change (localTasks st') with remaining in Hrun.
    change (deletedIds st') with (D ++ [id0]) in Hrun.
    exists (remaining ++ spec_unseenRemote remaining (D ++ [id0]) R).
    split; [exact Hrun|].
    rewrite ids_app. intros Hin. apply in_app_or in Hin.
    destruct Hin as [Hin|Hin].
    + exact (ids_without id0 L Hin).
    + unfold ids in Hin. apply in_map_iff in Hin.
      destruct Hin as [t [Heq Ht]].
      apply unseenRemote_avoids_deleted in Ht. apply Ht.
      rewrite Heq. apply in_or_app. right. now left.
Qed.

Lemma deleteTask_removes_and_tombstones_witness :
  truthy (isConnected online) = true /\
  In 2 (ids remoteScenario) /\
  exists merged,
    fetchTodos online (Fulfilled remoteScenario)
               (storage (deleteTodo 2 stScenario)) =
      mkRun (Fulfilled merged)
            {| item_todos := Some merged;
               item_deletedTaskIds := Some [2] |}
            [SetItemTodos merged]
    /\ ~ In 2 (ids merged).
Proof.
  split; [reflexivity|]. split; [right; left; reflexivity|].
  exact (proj2 (proj2 (proj2 (proj2 (proj2
           (deleteTask_removes_and_tombstones stScenario 2)))))
           online remoteScenario eq_refl (or_intror (or_introl eq_refl))).
Defined.

(** C10. deleteTask(id) appends [id0] to the deleted-id list whatever the
    two stored lists hold: the persisted deleted-id list is the prior one
    followed by [id0], one element longer.  Deleting an id twice from the
    empty storage leaves it there twice although no task was ever stored
    under it. *)
Theorem deleteTask_appends_unconditionally (st : AsyncStorage) (id0 : Z) :
  item_deletedTaskIds (storage (deleteTodo id0 st))
    = Some (deletedIds st ++ [id0])
  /\ List.length (deletedIds (storage (deleteTodo id0 st)))
     = S (List.length (deletedIds st))
  /\ deletedIds (performAll [OpDeleteTask id0; OpDeleteTask id0] emptyStorage)
     = [id0; id0]
  /\ ~ NoDup (deletedIds (performAll [OpDeleteTask id0; OpDeleteTask id0]
                                     emptyStorage))
  /\ Forall (fun s => localTasks s = [])
            (history [OpDeleteTask id0; OpDeleteTask id0] emptyStorage).
Proof.
  rewrite deleteTodo_run. cbv zeta. cbn [storage].
  split; [reflexivity|]. split.
  - unfold deletedIds at 1. cbn [item_deletedTaskIds parseOr].
    rewrite length_app. simpl. lia.
  - split; [reflexivity|]. split.
    + change (~ NoDup [id0; id0]). intros H. inversion H as [|x l Hx _]; subst.
      apply Hx. now left.
    + repeat constructor.
Qed.

(** C8. updateTask(u), for every object [u] a caller can pass, writes the
    task list in which every entry whose id is [u]'s id has become the
    field merge of that entry with [u], with [isSynced = false]: id, title
    and completed are [u]'s, and the description is [u]'s where [u] has the
    key with a value, is erased where [u] has the key bound to [undefined],
    and is the entry's where [u] has no such key.  Every other entry is
    what it was, position by position; when no entry has that id the list
    written is the prior list.  toggleComplete(t) is updateTask of [t]
    with [completed] inverted and every other key as [t] has it. *)
Theorem updateTask_replaces_matching (st : AsyncStorage) (u : TodoObject) :
  let L := localTasks st in
  let after := updateTodo u st in
  exists L',
    settled after = Fulfilled tt
    /\ storage after = {| item_todos := Some L';
                          item_deletedTaskIds := item_deletedTaskIds st |}
    /\ effects after = [SetItemTodos L'; InvalidateQueries]
    /\ List.length L' = List.length L
    /\ (forall i todo,
           nth_error L i = Some todo ->
           nth_error L' i =
             Some (if Z.eq_dec (id todo) (obj_id u)
                   then {| id := obj_id u;
                           title := obj_title u;
                           description :=
                             match obj_description u with
                             | KeyValue d => Some d
                             | KeyUndefined => None
                             | KeyAbsent => description todo
                             end;
                           completed := obj_completed u;
                           isSynced := Some false |}
                   else todo))
    /\ (~ In (obj_id u) (ids L) -> L' = L)
    /\ (forall t : TodoObject,
           toggleComplete t st =
           updateTodo {| obj_id := obj_id t; obj_title := obj_title t;
                         obj_description := obj_description t;
                         obj_completed := negb (obj_completed t);
                         obj_isSynced := obj_isSynced t |} st).
Proof.
  intros L after. subst after. rewrite updateTodo_run. cbv zeta. fold L.
  eexists. cbn [settled storage effects].
  split; [reflexivity|]. split; [reflexivity|]. split; [reflexivity|].
  split; [apply length_map|]. split; [|split].
  - intros i todo Hi. rewrite (map_nth_error _ _ _ Hi). f_equal.
    destruct (Z.eq_dec (id todo) (obj_id u)) as [Heq|Hne].
    + apply Z.eqb_eq in Heq. rewrite Heq. reflexivity.
    + apply Z.eqb_neq in Hne. rewrite Hne. reflexivity.
  - intros Hno. rewrite <- (map_id L) at 2. apply map_ext_in.
    intros todo Hin. destruct (Z.eqb_spec (id todo) (obj_id u)) as [Heq|Hne].
    + exfalso. apply Hno. rewrite <- Heq. unfold ids. now apply in_map.
    + reflexivity.
  - reflexivity.
Qed.

Lemma updateTask_replaces_matching_witness :
  nth_error (localTasks stScenario) 0 = Some taskA /\
  nth_error (localTasks stD) 0 = Some taskD /\
  ~ In (obj_id taskB) (ids (localTasks stScenario)) /\
  nth_error (localTasks (storage (updateTodo editA stScenario))) 0
    = Some {| id := 1; title := "A2"%string; description := Some ""%string;
              completed := true; isSynced := Some false |} /\
  nth_error (localTasks (storage (updateTodo clearD stD))) 0
    = Some {| id := 4; title := "D"%string; description := None;
              completed := false; isSynced := Some false |} /\
  nth_error (localTasks (storage (updateTodo renameD stD))) 0
    = Some {| id := 4; title := "D2"%string; description := Some "d"%string;
              completed := false; isSynced := Some false |} /\
  item_todos (storage (updateTodo taskB stScenario)) = Some [taskA].
Proof.
  split; [reflexivity|]. split; [reflexivity|].
  assert (Hno : ~ In (obj_id taskB) (ids (localTasks stScenario))).
  { simpl. intros [H|[]]. discriminate. }
  split; [exact Hno|].
  destruct (updateTask_replaces_matching stScenario editA)
    as [L1 [_ [Hst1 [_ [_ [Hnth1 _]]]]]].
  destruct (updateTask_replaces_matching stD clearD)
    as [L3 [_ [Hst3 [_ [_ [Hnth3 _]]]]]].
  destruct (updateTask_replaces_matching stD renameD)
    as [L4 [_ [Hst4 [_ [_ [Hnth4 _]]]]]].
  destruct (updateTask_replaces_matching stScenario taskB)
    as [L2 [_ [Hst2 [_ [_ [_ [Hnoop2 _]]]]]]].
  split; [|split; [|split]].
  - rewrite Hst1. exact (Hnth1 0%nat taskA eq_refl).
  - rewrite Hst3. exact (Hnth3 0%nat taskD eq_refl).
  - rewrite Hst4. exact (Hnth4 0%nat taskD eq_refl).
  - rewrite Hst2. cbn [item_todos]. f_equal. exact (Hnoop2 Hno).
Defined.

(** ** Adding a task *)

Lemma occurrences_cons_same (t : Todo) (l : list Todo) :
  occurrences t (t :: l) = S (occurrences t l).
Proof. unfold occurrences. apply count_occ_cons_eq. reflexivity. Qed.

Lemma occurrences_zero (t : Todo) (l : list Todo) :
  occurrences t l = 0%nat <-> ~ In t l.
Proof. unfold occurrences. symmetry. apply count_occ_not_In. Qed.

Lemma entriesWithId_zero (i : Z) (l : list Todo) :
  entriesWithId i l = 0%nat <-> ~ In i (ids l).
Proof.
  unfold entriesWithId. induction l as [|a l IH]; simpl.
  - tauto.
  - destruct (Z.eqb_spec (id a) i) as [Heq|Hne]; simpl.
    + split; [discriminate|]. intros H. exfalso. apply H. now left.
    + rewrite IH. tauto.
Qed.

(** C9, as the code has it. addTask(t) writes [t] with [isSynced = false]
    in front of the prior list, whatever that list holds, and an offline
    loadAndReconcile that follows returns that list.  The added record
    occurs in it once more than in the prior list: exactly once if and only
    if the prior list did not hold the same record, and it is the only
    entry under [id t] if and only if no prior task had that id. *)
Theorem addTask_prepends_unsynced
        (st : AsyncStorage) (t : Todo) (netInfo : NetInfoState)
        (api : Settled (list Todo)) :
  truthy (isConnected netInfo) = false ->
  let L := localTasks st in
  let added := withIsSynced false t in
  let after := addTodo t st in
  storage after = {| item_todos := Some (added :: L);
                     item_deletedTaskIds := item_deletedTaskIds st |}
  /\ effects after = [SetItemTodos (added :: L); InvalidateQueries]
  /\ settled (fetchTodos netInfo api (storage after)) = Fulfilled (added :: L)
  /\ isSynced added = Some false
  /\ occurrences added (added :: L) = S (occurrences added L)
  /\ (occurrences added (added :: L) = 1%nat <-> ~ In added L)
  /\ (entriesWithId (id t) (added :: L) = 1%nat <-> ~ In (id t) (ids L)).
Proof.
  intros Hnet L added after. subst after. rewrite addTodo_run. cbv zeta.
  fold L added. cbn [storage effects].
  split; [reflexivity|]. split; [reflexivity|]. split.
  { rewrite (fetchTodos_disconnected _ _ _ Hnet). reflexivity. }
  split; [reflexivity|]. split; [apply occurrences_cons_same|]. split.
  - rewrite occurrences_cons_same, <- occurrences_zero. lia.
  - unfold entriesWithId. simpl. rewrite Z.eqb_refl. simpl.
    fold (entriesWithId (id t) L). rewrite <- entriesWithId_zero. lia.
Qed.

Lemma addTask_prepends_unsynced_witness :
  truthy (isConnected offline) = false /\
  settled (fetchTodos offline Rejected (storage (addTodo taskB stScenario)))
    = Fulfilled [withIsSynced false taskB; taskA] /\
  occurrences (withIsSynced false taskB) [withIsSynced false taskB; taskA]
    = 1%nat.
Proof.
  split; [reflexivity|].
  destruct (addTask_prepends_unsynced stScenario taskB offline Rejected eq_refl)
    as [_ [_ [Hload [_ [_ [Honce _]]]]]].
  split; [exact Hload|].
  apply Honce. simpl. intros [H|[]]. discriminate.
Defined.

(** C9 as stated fails: add task A to a storage that already holds it (it
    was added once before); the offline load that follows returns it twice,
    under either way of counting. *)
Lemma addTask_twice_appears_twice :
  ~ (exists result,
        settled (fetchTodos offline Rejected (storage (addTodo taskA stAdded)))
          = Fulfilled result
        /\ (occurrences (withIsSynced false taskA) result = 1%nat
            \/ entriesWithId (id taskA) result = 1%nat)).
Proof.
  intros [result [Hres Hcount]].
  assert (Hret : result = [withIsSynced false taskA; withIsSynced false taskA]).
  { vm_compute in Hres. injection Hres as <-. reflexivity. }
  subst result. vm_compute in Hcount. destruct Hcount; discriminate.
Qed.

(** ** Uniqueness of identifiers *)

Lemma NoDup_ids_filter (p : Todo -> bool) (l : list Todo) :
  NoDup (ids l) -> NoDup (ids (filter p l)).
Proof.
  unfold ids. induction l as [|a l IH]; simpl; intros H; [constructor|].
  inversion H as [|x xs Hnotin Hrest]; subst.
  destruct (p a); simpl; [|now apply IH].
  constructor; [|now apply IH].
  intros Hin. apply Hnotin. apply in_map_iff in Hin.
  destruct Hin as [t [Heq Ht]]. apply filter_In in Ht.
  rewrite <- Heq. apply in_map. tauto.
Qed.

Lemma ids_update (u : TodoObject) (l : list Todo) :
  ids (map (fun todo => if id todo =? obj_id u then mergeUpdate todo u
                        else todo) l)
  = ids l.
Proof.
  unfold ids. rewrite map_map. apply map_ext. intros todo.
  destruct (Z.eqb_spec (id todo) (obj_id u)) as [Heq|Hne]; simpl; congruence.
Qed.

Lemma ids_tagged (b : bool) (l : list Todo) :
  ids (map (withIsSynced b) l) = ids l.
Proof. unfold ids. rewrite map_map. reflexivity. Qed.

Lemma NoDup_ids_merge (L : list Todo) (D : list Z) (R : list Todo) :
  NoDup (ids L) -> NoDup (ids R) -> NoDup (ids (spec_reconcile L D R)).
Proof.
  intros HL HR. unfold spec_reconcile. rewrite ids_app.
  apply NoDup_app; [exact HL| |].
  - unfold spec_unseenRemote. apply NoDup_ids_filter.
    now rewrite ids_tagged.
  - intros i HiL HiF. unfold ids in HiF. apply in_map_iff in HiF.
    destruct HiF as [t [Heq Ht]]. apply In_spec_unseenRemote in Ht.
    destruct Ht as [_ [_ Hfresh]]. apply Hfresh. now rewrite Heq.
Qed.

Lemma perform_keeps_uniqueIds (st : AsyncStorage) (o : Op) :
  uniqueIds st -> disciplined st o = true -> uniqueIds (perform o st).
Proof.
  unfold uniqueIds. intros Hst Hok.
  destruct o as [task|task|id0|task|netInfo api];
    cbn [perform disciplined] in *.
  - unfold localTasks at 1. rewrite addTodo_run. cbv zeta.
    cbn [storage item_todos parseOr].
    apply negb_true_iff, includes_not_In in Hok.
    change (NoDup (id task :: ids (localTasks st))). now constructor.
  - unfold localTasks at 1. rewrite updateTodo_run. cbn [storage item_todos parseOr].
    now rewrite ids_update.
  - unfold localTasks at 1. rewrite deleteTodo_run. cbn [storage item_todos parseOr].
    now apply NoDup_ids_filter.
  - unfold toggleComplete. unfold localTasks at 1. rewrite updateTodo_run.
    cbn [storage item_todos parseOr]. now rewrite ids_update.
  - destruct (truthy (isConnected netInfo)) eqn:Hnet.
    + destruct api as [serverTodos|].
      * rewrite (fetchTodos_connected _ _ _ Hnet). cbv zeta.
        unfold localTasks at 1. cbn [storage item_todos parseOr].
        rewrite mergedTodos_spec. apply NoDup_ids_merge; [exact Hst|].
        now apply distinct_NoDup.
      * now rewrite (fetchTodos_rejected _ _ Hnet).
    + now rewrite (fetchTodos_disconnected _ _ _ Hnet).
Qed.

Lemma history_keeps_uniqueIds (ops : list Op) :
  forall st, uniqueIds st -> allDisciplined st ops = true ->
             Forall uniqueIds (history ops st).
Proof.
  induction ops as [|o ops IH]; intros st Hst Hops; simpl.
  - now repeat constructor.
  - simpl in Hops. apply andb_true_iff in Hops. destruct Hops as [Ho Hops].
    constructor; [exact Hst|].
    apply IH; [now apply perform_keeps_uniqueIds | exact Hops].
Qed.

(** C6, as the code has it. Starting from the empty storage, the stored
    task list has pairwise distinct ids after every step of a sequence of
    addTask, updateTask, deleteTask, toggleComplete and loadAndReconcile
    operations in which every addTask brings an id that no stored task has
    and every remote array that gets merged has pairwise distinct ids.
    updateTask, deleteTask, toggleComplete, an offline or failed
    loadAndReconcile need no condition. *)
Theorem uniqueIds_under_discipline (ops : list Op) :
  allDisciplined emptyStorage ops = true ->
  Forall uniqueIds (history ops emptyStorage)
  /\ uniqueIds (performAll ops emptyStorage).
Proof.
  intros Hops.
  assert (Hempty : uniqueIds emptyStorage) by constructor.
  split; [now apply history_keeps_uniqueIds|].
  revert Hops Hempty. unfold performAll. generalize emptyStorage.
  induction ops as [|o ops IH]; intros st Hops Hst; simpl; [exact Hst|].
  simpl in Hops. apply andb_true_iff in Hops. destruct Hops as [Ho Hops].
  apply IH; [exact Hops | now apply perform_keeps_uniqueIds].
Qed.

Lemma uniqueIds_under_discipline_witness :
  allDisciplined emptyStorage
    [OpAddTask taskA; OpLoadAndReconcile online (Fulfilled remoteScenario);
     OpToggleComplete taskB; OpDeleteTask 1; OpAddTask taskA] = true /\
  uniqueIds (performAll
    [OpAddTask taskA; OpLoadAndReconcile online (Fulfilled remoteScenario);
     OpToggleComplete taskB; OpDeleteTask 1; OpAddTask taskA] emptyStorage).
Proof.
  split; [reflexivity|].
  exact (proj2 (uniqueIds_under_discipline
    [OpAddTask taskA; OpLoadAndReconcile online (Fulfilled remoteScenario);
     OpToggleComplete taskB; OpDeleteTask 1; OpAddTask taskA] eq_refl)).
Defined.

(** C6 as stated fails: adding a task under an id that is already stored
    leaves two tasks with that id, and so does merging a remote array that
    holds an id twice. *)
Lemma addTask_same_id_breaks_uniqueIds :
  ~ uniqueIds (performAll [OpAddTask taskA; OpAddTask remoteA] emptyStorage)
  /\ ~ uniqueIds (performAll
                    [OpLoadAndReconcile online (Fulfilled [taskB; taskB])]
                    emptyStorage).
Proof.
  split; intros H; vm_compute in H;
    inversion H as [|x l Hnotin _]; subst; apply Hnotin; now left.
Qed.

(** * Further properties of the hook *)

(** ** What a sequence of operations leaves in the deleted-id list *)

Lemma perform_deletedIds (o : Op) (st : AsyncStorage) :
  deletedIds (perform o st) = deletedIds st ++ deletedBy [o].
Proof.
  destruct o as [task|task|id0|task|netInfo api];
    cbn [perform deletedBy flat_map]; rewrite ?app_nil_r;
    try reflexivity.
  destruct (truthy (isConnected netInfo)) eqn:Hnet.
  - destruct api as [serverTodos|].
    + now rewrite (fetchTodos_connected _ _ _ Hnet).
    + now rewrite (fetchTodos_rejected _ _ Hnet).
  - now rewrite (fetchTodos_disconnected _ _ _ Hnet).
Qed.

(** X1. Whatever the operations of a sequence are and however the loads
    among them end, the deleted-id list afterwards is the list before
    followed by the ids of the deleteTask calls, in call order: no
    operation removes, reorders or rewrites a tombstone, and only
    deleteTask adds one. *)
Theorem deletedIds_after_sequence (ops : list Op) (st : AsyncStorage) :
  deletedIds (performAll ops st) = deletedIds st ++ deletedBy ops.
Proof.
  unfold performAll. revert st.
  induction ops as [|o ops IH]; intros st; simpl.
  - now rewrite app_nil_r.
  - rewrite IH, perform_deletedIds. unfold deletedBy. simpl.
    rewrite app_nil_r, app_assoc. reflexivity.
Qed.

(** ** Only deleteTask takes a task away *)

Lemma perform_keeps_ids (o : Op) (st : AsyncStorage) :
  isDelete o = false ->
  incl (ids (localTasks st)) (ids (localTasks (perform o st))).
Proof.
  intros Hdel.
  destruct o as [task|task|id0|task|netInfo api];
    cbn [perform isDelete] in *; try discriminate.
  - rewrite addTodo_run. cbv zeta. unfold localTasks at 2.
    cbn [storage item_todos parseOr]. intros i Hi. now right.
  - rewrite updateTodo_run. cbv zeta. unfold localTasks at 2.
    cbn [storage item_todos parseOr]. rewrite ids_update. apply incl_refl.
  - unfold toggleComplete. rewrite updateTodo_run. cbv zeta.
    unfold localTasks at 2. cbn [storage item_todos parseOr].
    rewrite ids_update. apply incl_refl.
  - destruct (truthy (isConnected netInfo)) eqn:Hnet.
    + destruct api as [serverTodos|].
      * rewrite (fetchTodos_connected_spec _ _ _ Hnet).
        unfold localTasks at 2. cbn [storage item_todos parseOr].
        rewrite ids_app. apply incl_appl, incl_refl.
      * rewrite (fetchTodos_rejected _ _ Hnet). apply incl_refl.
    + rewrite (fetchTodos_disconnected _ _ _ Hnet). apply incl_refl.
Qed.

(** X2. Over a sequence of operations without a deleteTask, every id that
    is stored at the start is still stored at the end: adding, updating,
    toggling and reconciling (online, offline or failed) never drop a
    task. *)
Theorem ids_kept_without_delete (ops : list Op) (st : AsyncStorage) :
  forallb (fun o => negb (isDelete o)) ops = true ->
  incl (ids (localTasks st)) (ids (localTasks (performAll ops st))).
Proof.
  unfold performAll. revert st.
  induction ops as [|o ops IH]; intros st Hops; simpl.
  - apply incl_refl.
  - simpl in Hops. apply andb_true_iff in Hops. destruct Hops as [Ho Hops].
    apply negb_true_iff in Ho.
    eapply incl_tran; [exact (perform_keeps_ids o st Ho) | now apply IH].
Qed.

Lemma ids_kept_without_delete_witness :
  forallb (fun o => negb (isDelete o))
          [OpUpdateTask editA;
           OpLoadAndReconcile online (Fulfilled remoteScenario);
           OpToggleComplete taskB; OpAddTask taskB] = true /\
  incl (ids (localTasks stScenario))
       (ids (localTasks (performAll
          [OpUpdateTask editA;
           OpLoadAndReconcile online (Fulfilled remoteScenario);
           OpToggleComplete taskB; OpAddTask taskB] stScenario))).
Proof.
  split; [reflexivity|].
  exact (ids_kept_without_delete
           [OpUpdateTask editA;
            OpLoadAndReconcile online (Fulfilled remoteScenario);
            OpToggleComplete taskB; OpAddTask taskB] stScenario eq_refl).
Defined.

(** ** Provenance of the synced flag *)

Lemma In_map_update (u : TodoObject) (t : Todo) (l : list Todo) :
  In t (map (fun todo => if id todo =? obj_id u then mergeUpdate todo u
                         else todo) l)
  -> In t l \/ isSynced t = Some false.
Proof.
  rewrite in_map_iff. intros [todo [Heq Hin]].
  destruct (id todo =? obj_id u); subst t; [now right | now left].
Qed.

(** X3. No operation marks a task that is already stored as synced: a task
    that is stored with [isSynced = true] after an operation either was
    stored, as the same record, before it, or the operation was an online
    loadAndReconcile whose fetch succeeded and the task is a remote task,
    tagged, whose id was neither stored nor deleted. *)
Theorem synced_only_from_remote (o : Op) (st : AsyncStorage) (t : Todo) :
  In t (localTasks (perform o st)) ->
  isSynced t = Some true ->
  In t (localTasks st)
  \/ exists netInfo R r,
       o = OpLoadAndReconcile netInfo (Fulfilled R)
       /\ truthy (isConnected netInfo) = true
       /\ In r R
       /\ t = withIsSynced true r
       /\ ~ In (id r) (ids (localTasks st))
       /\ ~ In (id r) (deletedIds st).
Proof.
  intros Hin Hflag.
  destruct o as [task|task|id0|task|netInfo api]; cbn [perform] in Hin.
  - rewrite addTodo_run in Hin. cbv zeta in Hin. unfold localTasks at 1 in Hin.
    cbn [storage item_todos parseOr] in Hin. destruct Hin as [Heq|Hin].
    + subst t. discriminate.
    + now left.
  - rewrite updateTodo_run in Hin. cbv zeta in Hin.
    unfold localTasks at 1 in Hin. cbn [storage item_todos parseOr] in Hin.
    apply In_map_update in Hin. destruct Hin as [Hin|Hf]; [now left|].
    congruence.
  - rewrite deleteTodo_run in Hin. cbv zeta in Hin.
    unfold localTasks at 1 in Hin. cbn [storage item_todos parseOr] in Hin.
    apply filter_In in Hin. left. tauto.
  - unfold toggleComplete in Hin. rewrite updateTodo_run in Hin.
    cbv zeta in Hin. unfold localTasks at 1 in Hin.
    cbn [storage item_todos parseOr] in Hin.
    apply In_map_update in Hin. destruct Hin as [Hin|Hf]; [now left|].
    congruence.
  - destruct (truthy (isConnected netInfo)) eqn:Hnet.
    + destruct api as [serverTodos|].
      * rewrite (fetchTodos_connected_spec _ _ _ Hnet) in Hin.
        unfold localTasks at 1 in Hin. cbn [storage item_todos parseOr] in Hin.
        apply in_app_or in Hin. destruct Hin as [Hin|Hin]; [now left|].
        right. apply In_spec_unseenRemote in Hin.
        destruct Hin as [Hmap [HD HL]]. apply in_map_iff in Hmap.
        destruct Hmap as [r [Heq Hr]]. subst t.
        exists netInfo, serverTodos, r. now repeat split.
      * rewrite (fetchTodos_rejected _ _ Hnet) in Hin. now left.
    + rewrite (fetchTodos_disconnected _ _ _ Hnet) in Hin. now left.
Qed.

Lemma synced_only_from_remote_witness :
  In (withIsSynced true taskB)
     (localTasks (perform (OpLoadAndReconcile online (Fulfilled remoteScenario))
                          stScenario)) /\
  isSynced (withIsSynced true taskB) = Some true /\
  (In (withIsSynced true taskB) (localTasks stScenario)
   \/ exists netInfo R r,
        OpLoadAndReconcile online (Fulfilled remoteScenario)
          = OpLoadAndReconcile netInfo (Fulfilled R)
        /\ truthy (isConnected netInfo) = true
        /\ In r R
        /\ withIsSynced true taskB = withIsSynced true r
        /\ ~ In (id r) (ids (localTasks stScenario))
        /\ ~ In (id r) (deletedIds stScenario)).
Proof.
  assert (Hin : In (withIsSynced true taskB)
                   (localTasks (perform (OpLoadAndReconcile online
                                           (Fulfilled remoteScenario))
                                        stScenario))).
  { right. left. reflexivity. }
  split; [exact Hin|]. split; [reflexivity|].
  exact (synced_only_from_remote _ _ _ Hin eq_refl).
Defined.

Lemma perform_keeps_allFlagged (o : Op) (st : AsyncStorage) :
  allFlagged st -> allFlagged (perform o st).
Proof.
  unfold allFlagged. intros Hst. apply Forall_forall. intros t Hin.
  rewrite Forall_forall in Hst.
  destruct (isSynced t) as [[|]|] eqn:Hflag; try discriminate.
  exfalso.
  destruct o as [task|task|id0|task|netInfo api]; cbn [perform] in Hin.
  - rewrite addTodo_run in Hin. cbv zeta in Hin. unfold localTasks at 1 in Hin.
    cbn [storage item_todos parseOr] in Hin. destruct Hin as [Heq|Hin].
    + subst t. discriminate.
    + exact (Hst t Hin Hflag).
  - rewrite updateTodo_run in Hin. cbv zeta in Hin.
    unfold localTasks at 1 in Hin. cbn [storage item_todos parseOr] in Hin.
    apply In_map_update in Hin. destruct Hin as [Hin|Hf];
      [exact (Hst t Hin Hflag) | congruence].
  - rewrite deleteTodo_run in Hin. cbv zeta in Hin.
    unfold localTasks at 1 in Hin. cbn [storage item_todos parseOr] in Hin.
    apply filter_In in Hin. exact (Hst t (proj1 Hin) Hflag).
  - unfold toggleComplete in Hin. rewrite updateTodo_run in Hin.
    cbv zeta in Hin. unfold localTasks at 1 in Hin.
    cbn [storage item_todos parseOr] in Hin.
    apply In_map_update in Hin. destruct Hin as [Hin|Hf];
      [exact (Hst t Hin Hflag) | congruence].
  - destruct (truthy (isConnected netInfo)) eqn:Hnet.
    + destruct api as [serverTodos|].
      * rewrite (fetchTodos_connected_spec _ _ _ Hnet) in Hin.
        unfold localTasks at 1 in Hin. cbn [storage item_todos parseOr] in Hin.
        apply in_app_or in Hin. destruct Hin as [Hin|Hin];
          [exact (Hst t Hin Hflag)|].
        apply In_spec_unseenRemote in Hin. destruct Hin as [Hmap _].
        apply in_map_iff in Hmap. destruct Hmap as [r [Heq _]].
        subst t. discriminate.
      * rewrite (fetchTodos_rejected _ _ Hnet) in Hin.
        exact (Hst t Hin Hflag).
    + rewrite (fetchTodos_disconnected _ _ _ Hnet) in Hin.
      exact (Hst t Hin Hflag).
Qed.

(** X4. Starting from the empty storage, at every step of any sequence of
    operations every stored task carries an [isSynced] key: the hook never
    stores a task whose flag is absent, although the type makes the key
    optional and the remote source does not send it. *)
Theorem stored_tasks_always_flagged (ops : list Op) :
  Forall allFlagged (history ops emptyStorage).
Proof.
  assert (Hempty : allFlagged emptyStorage) by constructor.
  revert Hempty. generalize emptyStorage.
  induction ops as [|o ops IH]; intros st Hst; simpl.
  - now repeat constructor.
  - constructor; [exact Hst|]. apply IH. now apply perform_keeps_allFlagged.
Qed.

(** ** How the mutations compose *)

(** X5. addTask(t) followed by deleteTask(t.id), for an id that no stored
    task had, leaves the task list as it was before the two calls; the id
    has become a tombstone all the same. *)
Theorem addTask_then_deleteTask_restores (st : AsyncStorage) (t : Todo) :
  ~ In (id t) (ids (localTasks st)) ->
  let st2 := storage (deleteTodo (id t) (storage (addTodo t st))) in
  localTasks st2 = localTasks st
  /\ deletedIds st2 = deletedIds st ++ [id t].
Proof.
  intros Hfresh st2. subst st2.
  rewrite addTodo_run, deleteTodo_run. cbv zeta. cbn [storage].
  unfold localTasks at 1 2, deletedIds at 1 2.
  cbn [item_todos item_deletedTaskIds parseOr].
  split; [|reflexivity].
  cbn [filter withIsSynced id]. rewrite Z.eqb_refl. cbn [negb].
  apply filter_all. intros todo Hin. apply id_neqb. intros Heq.
  apply Hfresh. rewrite <- Heq. unfold ids. now apply in_map.
Qed.

Lemma addTask_then_deleteTask_restores_witness :
  ~ In (id taskB) (ids (localTasks stScenario)) /\
  localTasks (storage (deleteTodo (id taskB) (storage (addTodo taskB stScenario))))
    = [taskA] /\
  deletedIds (storage (deleteTodo (id taskB) (storage (addTodo taskB stScenario))))
    = [2].
Proof.
  assert (Hfresh : ~ In (id taskB) (ids (localTasks stScenario))).
  { simpl. intros [H|[]]. discriminate. }
  split; [exact Hfresh|].
  exact (addTask_then_deleteTask_restores stScenario taskB Hfresh).
Defined.

Lemma spreadKey_again {A : Type} (a : option A) (b : OptionalKey A) :
  spreadKey (spreadKey a b) b = spreadKey a b.
Proof. destruct b; reflexivity. Qed.

Lemma spreadKey_same {A : Type} (a : option A) :
  spreadKey a (keyOfOption a) = a.
Proof. destruct a; reflexivity. Qed.

(** X6. updateTask is idempotent: a second updateTask(u) with the same
    argument, whatever object it is, leaves the storage exactly as the
    first one left it. *)
Theorem updateTask_idempotent (st : AsyncStorage) (u : TodoObject) :
  storage (updateTodo u (storage (updateTodo u st)))
  = storage (updateTodo u st).
Proof.
  rewrite !updateTodo_run. cbv zeta. cbn [storage].
  unfold localTasks at 1. cbn [item_todos item_deletedTaskIds parseOr].
  f_equal. f_equal. rewrite map_map. apply map_ext. intros todo.
  destruct (Z.eqb_spec (id todo) (obj_id u)) as [Heq|Hne].
  - cbn [mergeUpdate id]. rewrite Z.eqb_refl.
    unfold mergeUpdate. cbn. now rewrite spreadKey_again.
  - apply Z.eqb_neq in Hne. now rewrite Hne.
Qed.

(** X7. Toggling a task and then toggling the record that the first toggle
    stored brings the completion state back but not the record: the
    storage is the one that updateTask of the original task would have
    left, so a stored task that was toggled twice is back to its fields
    with [isSynced = false]. *)
Theorem toggleComplete_twice (st : AsyncStorage) (item : Todo) :
  let st1 := storage (toggleComplete item st) in
  let item1 := withIsSynced false (withCompleted (negb (completed item)) item) in
  let st2 := storage (toggleComplete item1 st1) in
  st2 = storage (updateTodo item st)
  /\ (In item (localTasks st) -> In item1 (localTasks st1))
  /\ (In item (localTasks st) ->
      In (withIsSynced false item) (localTasks st2)).
Proof.
  intros st1 item1 st2.
  assert (Hst2 : st2 = storage (updateTodo item st)).
  { subst st2 st1 item1. unfold toggleComplete.
    rewrite !updateTodo_run. cbv zeta. cbn [storage].
    unfold localTasks at 1. cbn [item_todos item_deletedTaskIds parseOr].
    f_equal. f_equal. rewrite map_map. apply map_ext. intros todo.
    cbn [inMemory objWithCompleted obj_id obj_completed obj_description
         withCompleted withIsSynced id completed description].
    destruct (Z.eqb_spec (id todo) (id item)) as [Heq|Hne].
    - cbn [mergeUpdate id obj_id]. rewrite Z.eqb_refl.
      unfold mergeUpdate. cbn. rewrite spreadKey_again, negb_involutive.
      reflexivity.
    - apply Z.eqb_neq in Hne. now rewrite !Hne. }
  split; [exact Hst2|]. split.
  - intros Hin. subst st1 item1. unfold toggleComplete.
    rewrite updateTodo_run. cbv zeta. unfold localTasks at 1.
    cbn [storage item_todos parseOr]. apply in_map_iff. exists item.
    split; [|exact Hin]. cbn [inMemory objWithCompleted obj_id].
    rewrite Z.eqb_refl.
    unfold mergeUpdate, withIsSynced, withCompleted. cbn.
    now rewrite spreadKey_same.
  - intros Hin. rewrite Hst2. rewrite updateTodo_run. cbv zeta.
    unfold localTasks at 1. cbn [storage item_todos parseOr].
    apply in_map_iff. exists item. split; [|exact Hin].
    cbn [inMemory obj_id]. rewrite Z.eqb_refl.
    unfold mergeUpdate, withIsSynced. cbn.
    now rewrite spreadKey_same.
Qed.

Lemma toggleComplete_twice_witness :
  In taskA (localTasks stScenario) /\
  In (withIsSynced false taskA)
     (localTasks
        (storage (toggleComplete
                    (withIsSynced false (withCompleted (negb (completed taskA))
                                                       taskA))
                    (storage (toggleComplete taskA stScenario))))).
Proof.
  assert (Hin : In taskA (localTasks stScenario)) by (left; reflexivity).
  split; [exact Hin|].
  exact (proj2 (proj2 (toggleComplete_twice stScenario taskA)) Hin).
Defined.

(** ** More on the merge *)

Lemma spec_unseenRemote_all (L : list Todo) (D : list Z) (R : list Todo) :
  (forall r, In r R -> ~ In (id r) D /\ ~ In (id r) (ids L)) ->
  spec_unseenRemote L D R = map (withIsSynced true) R.
Proof.
  intros Hall. unfold spec_unseenRemote. apply filter_all. intros t Ht.
  apply in_map_iff in Ht. destruct Ht as [r [Heq Hr]]. subst t.
  destruct (Hall r Hr) as [HD HL]. cbn [withIsSynced id].
  destruct (in_dec Z.eq_dec (id r) D); [contradiction|].
  destruct (in_dec Z.eq_dec (id r) (ids L)); [contradiction|reflexivity].
Qed.

(** X8. When no remote task has a deleted id or the id of a local task, an
    online loadAndReconcile returns the local tasks followed by all remote
    tasks, each with its fields and [isSynced = true], in the remote order,
    and the result has as many tasks as the two lists together. *)
Theorem loadAndReconcile_nothing_dropped
        (st : AsyncStorage) (netInfo : NetInfoState) (R : list Todo) :
  truthy (isConnected netInfo) = true ->
  (forall r, In r R ->
             ~ In (id r) (deletedIds st) /\ ~ In (id r) (ids (localTasks st))) ->
  exists merged,
    settled (fetchTodos netInfo (Fulfilled R) st) = Fulfilled merged
    /\ merged = localTasks st ++
                map (fun r => {| id := id r; title := title r;
                                 description := description r;
                                 completed := completed r;
                                 isSynced := Some true |}) R
    /\ (forall t, In t (skipn (List.length (localTasks st)) merged) ->
                  isSynced t = Some true)
    /\ List.length merged
       = (List.length (localTasks st) + List.length R)%nat.
Proof.
  intros Hnet Hall. rewrite (fetchTodos_connected_spec _ _ _ Hnet).
  cbn [settled]. eexists. split; [reflexivity|].
  rewrite (spec_unseenRemote_all _ _ _ Hall).
  split; [reflexivity|]. split.
  - intros t Ht. rewrite skipn_app, skipn_all, Nat.sub_diag in Ht.
    cbn [skipn app] in Ht. apply in_map_iff in Ht.
    destruct Ht as [r [Heq _]]. now subst t.
  - now rewrite length_app, length_map.
Qed.

Lemma loadAndReconcile_nothing_dropped_witness :
  truthy (isConnected online) = true /\
  (forall r, In r [taskB] ->
             ~ In (id r) (deletedIds stScenario)
             /\ ~ In (id r) (ids (localTasks stScenario))) /\
  exists merged,
    settled (fetchTodos online (Fulfilled [taskB]) stScenario)
      = Fulfilled merged
    /\ merged = [taskA;
                 {| id := 2; title := "B"%string; description := None;
                    completed := false; isSynced := Some true |}]
    /\ (forall t, In t (skipn 1 merged) -> isSynced t = Some true)
    /\ List.length merged = 2%nat.
Proof.
  assert (Hall : forall r, In r [taskB] ->
                   ~ In (id r) (deletedIds stScenario)
                   /\ ~ In (id r) (ids (localTasks stScenario))).
  { intros r [Hr|[]]. subst r. split; simpl; [tauto|].
    intros [H|[]]. discriminate. }
  split; [reflexivity|]. split; [exact Hall|].
  exact (loadAndReconcile_nothing_dropped stScenario online [taskB]
           eq_refl Hall).
Defined.

(** X9. Local wins: under an id that some local task has, the list an
    online loadAndReconcile returns holds exactly the local entries, in
    their order, whatever the remote array says about that id. *)
Theorem loadAndReconcile_local_wins
        (st : AsyncStorage) (netInfo : NetInfoState) (R : list Todo) (i : Z) :
  truthy (isConnected netInfo) = true ->
  In i (ids (localTasks st)) ->
  exists merged,
    settled (fetchTodos netInfo (Fulfilled R) st) = Fulfilled merged
    /\ filter (fun t => id t =? i) merged
       = filter (fun t => id t =? i) (localTasks st).
Proof.
  intros Hnet Hi. rewrite (fetchTodos_connected_spec _ _ _ Hnet).
  cbn [settled]. eexists. split; [reflexivity|].
  rewrite filter_app.
  rewrite (filter_none (fun t => id t =? i) (spec_unseenRemote _ _ _)).
  - apply app_nil_r.
  - intros t Ht. apply In_spec_unseenRemote in Ht.
    destruct Ht as [_ [_ HL]]. apply Z.eqb_neq. intros Heq.
    apply HL. now rewrite Heq.
Qed.

Lemma loadAndReconcile_local_wins_witness :
  truthy (isConnected online) = true /\
  In 1 (ids (localTasks stScenario)) /\
  exists merged,
    settled (fetchTodos online (Fulfilled remoteScenario) stScenario)
      = Fulfilled merged
    /\ filter (fun t => id t =? 1) merged
       = filter (fun t => id t =? 1) (localTasks stScenario).
Proof.
  assert (Hi : In 1 (ids (localTasks stScenario))) by (left; reflexivity).
  split; [reflexivity|]. split; [exact Hi|].
  exact (loadAndReconcile_local_wins stScenario online remoteScenario 1
           eq_refl Hi).
Defined.

(** * Properties of the screen *)

(** ** The three views *)

Lemma filter_complement_length {A : Type} (p : A -> bool) (l : list A) :
  (List.length (filter (fun x => negb (p x)) l)
   + List.length (filter p l))%nat = List.length l.
Proof.
  induction l as [|a l IH]; simpl; [reflexivity|].
  destruct (p a); simpl; lia.
Qed.

Lemma filter_twice {A : Type} (p : A -> bool) (l : list A) :
  filter p (filter p l) = filter p l.
Proof.
  apply filter_all. intros x Hx. apply filter_In in Hx. tauto.
Qed.

(** X10. The Pending and the Completed view split the list the query
    returned: every task is shown in exactly one of the two, a task shown
    as Pending is not completed and one shown as Completed is, the two
    views together have as many entries as the list, the All view is the
    list itself, and filtering a view again by its own filter changes
    nothing.  While the query has no data every view is empty. *)
Theorem filteredTodos_views (todos : list Todo) :
  (forall t, In t todos <->
             In t (filteredTodos (Some todos) Pending)
             \/ In t (filteredTodos (Some todos) Completed))
  /\ (forall t, In t (filteredTodos (Some todos) Pending) ->
                completed t = false
                /\ ~ In t (filteredTodos (Some todos) Completed))
  /\ (forall t, In t (filteredTodos (Some todos) Completed) ->
                completed t = true)
  /\ (List.length (filteredTodos (Some todos) Pending)
      + List.length (filteredTodos (Some todos) Completed))%nat
     = List.length todos
  /\ filteredTodos (Some todos) All = todos
  /\ (forall f, filteredTodos (Some (filteredTodos (Some todos) f)) f
                = filteredTodos (Some todos) f)
  /\ (forall f, filteredTodos None f = []).
Proof.
  cbn [filteredTodos]. split; [|split; [|split; [|split; [|split; [|split]]]]].
  - intros t. rewrite !filter_In. destruct (completed t); intuition.
  - intros t Ht. apply filter_In in Ht. destruct Ht as [_ Hc].
    apply negb_true_iff in Hc. split; [exact Hc|].
    rewrite filter_In. intros [_ Hc']. congruence.
  - intros t Ht. apply filter_In in Ht. tauto.
  - apply (filter_complement_length completed).
  - reflexivity.
  - intros [| |]; [reflexivity | apply filter_twice | apply filter_twice].
  - intros f. reflexivity.
Qed.

Lemma filteredTodos_views_witness :
  In taskA (filteredTodos (Some [taskA; withCompleted true taskB]) Pending) /\
  completed taskA = false /\
  ~ In taskA (filteredTodos (Some [taskA; withCompleted true taskB]) Completed).
Proof.
  assert (Hin : In taskA (filteredTodos (Some [taskA; withCompleted true taskB])
                                        Pending)) by (left; reflexivity).
  split; [exact Hin|].
  exact (proj1 (proj2 (filteredTodos_views [taskA; withCompleted true taskB]))
               taskA Hin).
Defined.

(** X11. toggleComplete moves a stored task from one view to the other:
    once the stored list is shown again, the task appears, with its
    completion inverted and [isSynced = false], in the view opposite to the
    one it was in, and no entry with its id is left in the view it was
    in. *)
Theorem toggleComplete_switches_view (st : AsyncStorage) (item : Todo) :
  In item (localTasks st) ->
  let shown := Some (localTasks (storage (toggleComplete item st))) in
  let moved := withIsSynced false (withCompleted (negb (completed item)) item) in
  In moved (filteredTodos shown (if completed item then Pending else Completed))
  /\ ~ In (id item)
          (ids (filteredTodos shown
                              (if completed item then Completed else Pending))).
Proof.
  intros Hin shown moved. subst shown moved. unfold toggleComplete.
  rewrite updateTodo_run. cbv zeta. unfold localTasks at 1 2.
  cbn [storage item_todos parseOr inMemory objWithCompleted obj_id
       obj_completed].
  set (f := fun todo : Todo =>
              if id todo =? id item
              then mergeUpdate todo
                     (objWithCompleted (negb (completed item)) item)
              else todo).
  assert (Hmoved : In (withIsSynced false
                         (withCompleted (negb (completed item)) item))
                      (map f (localTasks st))).
  { apply in_map_iff. exists item. split; [|exact Hin].
    unfold f. rewrite Z.eqb_refl.
    unfold mergeUpdate, withIsSynced, withCompleted. cbn.
    now rewrite spreadKey_same. }
  assert (Hall : forall t, In t (map f (localTasks st)) ->
                           id t = id item ->
                           completed t = negb (completed item)).
  { intros t Ht Hid. apply in_map_iff in Ht. destruct Ht as [todo [Heq _]].
    subst t. unfold f in *.
    destruct (Z.eqb_spec (id todo) (id item)) as [He|Hne];
      [reflexivity | contradiction]. }
  split.
  - destruct (completed item) eqn:Hc; cbn [filteredTodos];
      apply filter_In; (split; [exact Hmoved | reflexivity]).
  - unfold ids. rewrite in_map_iff. intros [t [Hid Ht]].
    destruct (completed item) eqn:Hc; cbn [filteredTodos] in Ht;
      apply filter_In in Ht; destruct Ht as [Ht Hview];
      pose proof (Hall t Ht Hid) as Hneg; cbn [negb] in Hneg.
    + congruence.
    + apply negb_true_iff in Hview. congruence.
Qed.

Lemma toggleComplete_switches_view_witness :
  In taskA (localTasks stScenario) /\
  In (withIsSynced false (withCompleted true taskA))
     (filteredTodos (Some (localTasks (storage (toggleComplete taskA stScenario))))
                    Completed) /\
  ~ In 1 (ids (filteredTodos
                 (Some (localTasks (storage (toggleComplete taskA stScenario))))
                 Pending)).
Proof.
  assert (Hin : In taskA (localTasks stScenario)) by (left; reflexivity).
  split; [exact Hin|].
  exact (toggleComplete_switches_view stScenario taskA Hin).
Defined.

(** ** Fetching from the server *)

Lemma filter_some_nil (l : list Todo) :
  filter (fun serverTodo : Todo =>
            negb (some (fun localTodo : Todo => id localTodo =? id serverTodo)
                       []))
         l = l.
Proof. apply filter_all. reflexivity. Qed.

(** X12. handleFetchFromServer overwrites the stored task list with the
    empty list; when the reload it triggers runs online and the fetch
    succeeds, it returns and stores the remote tasks, tagged
    [isSynced = true], without those whose id is a tombstone.  No local
    task survives, but tombstones do: the deleted-id list is untouched.
    The handler leaves the screen not syncing and the confirmation
    closed. *)
Theorem handleFetchFromServer_replaces_local
        (sc : Screen) (st : AsyncStorage) (netInfo : NetInfoState)
        (R : list Todo) :
  truthy (isConnected netInfo) = true ->
  let h := handleFetchFromServer sc in
  let st1 := storage (snd h st) in
  let fromServer :=
    filter (fun r => negb (includes (deletedIds st) (id r)))
           (map (withIsSynced true) R) in
  effects (snd h st) = [SetItemTodos []; InvalidateQueries]
  /\ fetchTodos netInfo (Fulfilled R) st1 =
       mkRun (Fulfilled fromServer)
             {| item_todos := Some fromServer;
                item_deletedTaskIds := item_deletedTaskIds st |}
             [SetItemTodos fromServer]
  /\ (forall t, In t fromServer ->
                isSynced t = Some true /\ ~ In (id t) (deletedIds st))
  /\ isSyncing (applySets (fst h) sc) = false
  /\ confirmSync (modalState (applySets (fst h) sc)) = false.
Proof.
  intros Hnet h st1 fromServer. subst h st1.
  split; [reflexivity|]. split; [|split; [|split; reflexivity]].
  - rewrite (fetchTodos_connected _ _ _ Hnet). cbv zeta.
    unfold handleFetchFromServer, bind; cbn.
    unfold mergedTodos. cbn [app]. rewrite filter_some_nil.
    reflexivity.
  - intros t Ht. subst fromServer. apply filter_In in Ht.
    destruct Ht as [Hmap HD]. apply in_map_iff in Hmap.
    destruct Hmap as [r [Heq _]]. split; [now subst t|].
    apply includes_not_In. now apply negb_true_iff.
Qed.

Lemma handleFetchFromServer_replaces_local_witness :
  truthy (isConnected online) = true /\
  fetchTodos online (Fulfilled remoteScenario)
             (storage (snd (handleFetchFromServer idleScreen) stReadded)) =
    mkRun (Fulfilled [withIsSynced true taskB])
          {| item_todos := Some [withIsSynced true taskB];
             item_deletedTaskIds := Some [1] |}
          [SetItemTodos [withIsSynced true taskB]].
Proof.
  split; [reflexivity|].
  exact (proj1 (proj2 (handleFetchFromServer_replaces_local
                         idleScreen stReadded online remoteScenario eq_refl))).
Defined.

(** X13. When the reload that handleFetchFromServer triggers finds the
    device offline, or its fetch fails, nothing is put in place of the
    list that was cleared: the reload returns the empty list or rejects,
    and the stored task list stays empty, whatever tasks, synced or not,
    were stored before. *)
Theorem handleFetchFromServer_offline_clears
        (sc : Screen) (st : AsyncStorage) (netInfo : NetInfoState)
        (api : Settled (list Todo)) :
  truthy (isConnected netInfo) = false \/ api = Rejected ->
  let st1 := storage (snd (handleFetchFromServer sc) st) in
  let reload := fetchTodos netInfo api st1 in
  (settled reload = Fulfilled [] \/ settled reload = Rejected)
  /\ storage reload = {| item_todos := Some [];
                         item_deletedTaskIds := item_deletedTaskIds st |}
  /\ localTasks (storage reload) = []
  /\ effects reload = [].
Proof.
  intros Hcase st1 reload. subst reload st1.
  destruct (truthy (isConnected netInfo)) eqn:Hnet.
  - destruct Hcase as [Hoff|Hrej]; [discriminate|]. subst api.
    rewrite (fetchTodos_rejected _ _ Hnet). cbn [settled storage effects].
    split; [now right|]. now repeat split.
  - rewrite (fetchTodos_disconnected _ _ _ Hnet). cbn [settled storage effects].
    split; [now left|]. now repeat split.
Qed.

Lemma handleFetchFromServer_offline_clears_witness :
  (truthy (isConnected offline) = false
   \/ Fulfilled remoteScenario = Rejected) /\
  localTasks (storage (fetchTodos offline (Fulfilled remoteScenario)
                         (storage (snd (handleFetchFromServer idleScreen)
                                       stScenario)))) = [].
Proof.
  assert (Hcase : truthy (isConnected offline) = false
                  \/ Fulfilled remoteScenario = Rejected)
    by (left; reflexivity).
  split; [exact Hcase|].
  exact (proj1 (proj2 (proj2 (handleFetchFromServer_offline_clears
                                idleScreen stScenario offline
                                (Fulfilled remoteScenario) Hcase)))).
Defined.

(** ** The add and edit form *)

Lemma orEmpty_same (s : string) : orEmpty s = s.
Proof. destruct s; reflexivity. Qed.

Lemma applySets_resetModal (sc : Screen) :
  applySets resetModal sc =
  {| taskData := initialTaskData;
     modalState := {| addTask := false; confirmSync := false |};
     isOnline := isOnline sc; isSyncing := isSyncing sc |}.
Proof. reflexivity. Qed.

(** X14. Submitting the form with a title that is not blank and no id (or
    the id 0) adds a task: the stored list becomes the new task in front of
    the prior list, the new task having the clock value as id, the title
    as typed (not trimmed), the description as typed (present even when
    empty), [completed = false] whatever the form held, and
    [isSynced = false]; the form is reset and the modal closed. *)
Theorem handleAddOrEditTask_adds
        (trim : string -> string) (now : Z) (sc : Screen)
        (st : AsyncStorage) :
  truthyString (trim (taskData_title (taskData sc))) = true ->
  truthyNumber (taskData_id (taskData sc)) = false ->
  let h := handleAddOrEditTask trim now sc in
  storage (snd h st) =
    {| item_todos :=
         Some ({| id := now;
                  title := taskData_title (taskData sc);
                  description := Some (taskData_description (taskData sc));
                  completed := false;
                  isSynced := Some false |} :: localTasks st);
       item_deletedTaskIds := item_deletedTaskIds st |}
  /\ applySets (fst h) sc =
       {| taskData := initialTaskData;
          modalState := {| addTask := false; confirmSync := false |};
          isOnline := isOnline sc; isSyncing := isSyncing sc |}.
Proof.
  intros Htitle Hid h. subst h. unfold handleAddOrEditTask.
  rewrite Htitle.
  destruct (taskData_id (taskData sc)) as [i|] eqn:Hi;
    [rewrite Hid|]; cbn [fst snd]; rewrite addTodo_run; cbv zeta;
    cbn [storage withIsSynced id title description completed];
    rewrite orEmpty_same; (split; [reflexivity | apply applySets_resetModal]).
Qed.

Lemma handleAddOrEditTask_adds_witness :
  truthyString (dropSpaces (taskData_title (taskData formNew))) = true /\
  truthyNumber (taskData_id (taskData formNew)) = false /\
  storage (snd (handleAddOrEditTask dropSpaces 1700000000000 formNew)
               stScenario) =
    {| item_todos :=
         Some [ {| id := 1700000000000; title := " milk"%string;
                   description := Some EmptyString; completed := false;
                   isSynced := Some false |}; taskA ];
       item_deletedTaskIds := Some [] |}.
Proof.
  split; [reflexivity|]. split; [reflexivity|].
  exact (proj1 (handleAddOrEditTask_adds dropSpaces 1700000000000 formNew
                  stScenario eq_refl eq_refl)).
Defined.

(** X15. Opening the edit modal on a task whose id is not 0 and whose title
    is not blank, and submitting the form as it was filled in, is not a
    no-op: every stored entry with that id takes the task's title and
    completion, gets a description (the empty string when the task had
    none) and [isSynced = false]; other entries and the deleted-id list are
    left alone, and the modal is closed. *)
Theorem edit_without_change_marks_unsynced
        (trim : string -> string) (now : Z) (sc : Screen)
        (st : AsyncStorage) (task : Todo) :
  id task <> 0 ->
  truthyString (trim (title task)) = true ->
  let sc1 := applySets (openEditModal task sc) sc in
  let h := handleAddOrEditTask trim now sc1 in
  storage (snd h st) =
    {| item_todos :=
         Some (map (fun todo =>
                      if id todo =? id task
                      then {| id := id task;
                              title := title task;
                              description :=
                                Some (descriptionOrEmpty (description task));
                              completed := completed task;
                              isSynced := Some false |}
                      else todo)
                   (localTasks st));
       item_deletedTaskIds := item_deletedTaskIds st |}
  /\ addTask (modalState sc1) = true
  /\ addTask (modalState (applySets (fst h) sc1)) = false.
Proof.
  intros Hid Htitle sc1 h. subst h sc1. unfold handleAddOrEditTask.
  cbn [openEditModal applySets fold_left applySet taskData modalState
       taskData_title taskData_id taskData_description taskData_completed
       addTask].
  rewrite Htitle. cbn [truthyNumber].
  apply Z.eqb_neq in Hid. rewrite Hid. cbn [negb fst snd].
  rewrite updateTodo_run. cbv zeta. cbn [storage id].
  rewrite orEmpty_same. now repeat split.
Qed.

Lemma edit_without_change_marks_unsynced_witness :
  id taskA <> 0 /\
  truthyString (dropSpaces (title taskA)) = true /\
  storage (snd (handleAddOrEditTask dropSpaces 5
                  (applySets (openEditModal taskA idleScreen) idleScreen))
               stScenario) =
    {| item_todos :=
         Some [ {| id := 1; title := "A"%string;
                   description := Some EmptyString; completed := false;
                   isSynced := Some false |} ];
       item_deletedTaskIds := Some [] |}.
Proof.
  assert (Hid : id taskA <> 0) by discriminate.
  split; [exact Hid|]. split; [reflexivity|].
  exact (proj1 (edit_without_change_marks_unsynced dropSpaces 5 idleScreen
                  stScenario taskA Hid eq_refl)).
Defined.

(** X16. A task whose id is 0 cannot be edited: the form takes the id 0 for
    no id, so opening the edit modal on such a task and submitting adds a
    new task under the clock value, with [completed = false], in front of
    the stored list, and leaves the task itself as it was. *)
Theorem edit_of_id_zero_adds
        (trim : string -> string) (now : Z) (sc : Screen)
        (st : AsyncStorage) (task : Todo) :
  id task = 0 ->
  truthyString (trim (title task)) = true ->
  let sc1 := applySets (openEditModal task sc) sc in
  let h := handleAddOrEditTask trim now sc1 in
  localTasks (storage (snd h st)) =
    {| id := now;
       title := title task;
       description := Some (descriptionOrEmpty (description task));
       completed := false;
       isSynced := Some false |} :: localTasks st.
Proof.
  intros Hid Htitle sc1 h. subst h sc1. unfold handleAddOrEditTask.
  cbn [openEditModal applySets fold_left applySet taskData modalState
       taskData_title taskData_id taskData_description taskData_completed].
  rewrite Htitle, Hid. cbn [truthyNumber Z.eqb negb fst snd].
  rewrite addTodo_run. cbv zeta. unfold localTasks at 1.
  cbn [storage item_todos parseOr withIsSynced id title description completed].
  now rewrite orEmpty_same.
Qed.

Lemma edit_of_id_zero_adds_witness :
  id taskZero = 0 /\
  truthyString (dropSpaces (title taskZero)) = true /\
  localTasks (storage (snd (handleAddOrEditTask dropSpaces 7
                              (applySets (openEditModal taskZero idleScreen)
                                         idleScreen))
                           {| item_todos := Some [taskZero];
                              item_deletedTaskIds := None |})) =
    [ {| id := 7; title := "Z"%string; description := Some EmptyString;
         completed := false; isSynced := Some false |}; taskZero ].
Proof.
  split; [reflexivity|]. split; [reflexivity|].
  exact (edit_of_id_zero_adds dropSpaces 7 idleScreen
           {| item_todos := Some [taskZero]; item_deletedTaskIds := None |}
           taskZero eq_refl eq_refl).
Defined.

(** X17. Submitting the form with a blank title (one that [trim] empties)
    does nothing at all: no mutation is started, the storage is not
    written, and the form and the modal stay as they are. *)
Theorem handleAddOrEditTask_blank_title
        (trim : string -> string) (now : Z) (sc : Screen)
        (st : AsyncStorage) :
  trim (taskData_title (taskData sc)) = EmptyString ->
  let h := handleAddOrEditTask trim now sc in
  storage (snd h st) = st
  /\ effects (snd h st) = []
  /\ applySets (fst h) sc = sc.
Proof.
  intros Hblank h. subst h. unfold handleAddOrEditTask. rewrite Hblank.
  cbn. now repeat split.
Qed.

Lemma handleAddOrEditTask_blank_title_witness :
  dropSpaces (taskData_title (taskData formBlank)) = EmptyString /\
  storage (snd (handleAddOrEditTask dropSpaces 9 formBlank) stScenario)
    = stScenario /\
  effects (snd (handleAddOrEditTask dropSpaces 9 formBlank) stScenario) = [] /\
  applySets (fst (handleAddOrEditTask dropSpaces 9 formBlank)) formBlank
    = formBlank.
Proof.
  split; [reflexivity|].
  exact (handleAddOrEditTask_blank_title dropSpaces 9 formBlank stScenario
           eq_refl).
Defined.
